(** * Pine Forge generation session: the Generator page and its forms

    A shallow embedding of the client-side session logic of
    [src/pages/Generator.tsx] (the component state, [handleSubmitPrompt],
    [handleSubmitFeedback] and the activity polling effect), of the
    [ChatInput] and [FeedbackForm] components that call into it, and of the
    transport client [apiClient].

    React state is a record [Store]; an [async] handler is a finite tree
    [Proc] of state updates that suspends at each [await]; the page as a
    whole is a transition system whose events are the user's gestures, the
    ticks of the polling interval and the settlement of outstanding
    requests. *)

From Stdlib Require Import Bool List String Ascii NArith ZArith Lia.
From Stdlib Require Import Decimal DecimalString.
From Stdlib Require Import Floats.SpecFloat.
Import ListNotations.
Local Open Scope string_scope.
Local Open Scope list_scope.

Set Implicit Arguments.
Set Warnings "-register-all".

(** ** JavaScript values *)

(** A JS number is an IEEE 754 binary64 value. *)
Definition JsNumber := spec_float.

(** Values produced by [JSON.parse], plus [undefined] for an absent
    property.  An object is the list of its own properties, keys distinct. *)
Inductive JsVal : Type :=
| JUndefined
| JNull
| JBool (b : bool)
| JNum (n : JsNumber)
| JStr (s : string)
| JArr (items : list JsVal)
| JObj (props : list (string * JsVal)).

(** The number literals [0.6] and [5] of [handleSubmitPrompt], as the
    doubles they denote: 0x1.3333333333333p-1 and 5. *)
Definition lit_0_6 : JsNumber := S754_finite false 5404319552844595 (-53).
Definition lit_5 : JsNumber := S754_finite false 5629499534213120 (-50).

Definition number_truthy (n : JsNumber) : bool :=
  match n with
  | S754_zero _ => false
  | S754_nan => false
  | S754_infinity _ => true
  | S754_finite _ _ _ => true
  end.

Definition string_truthy (s : string) : bool :=
  match s with
  | EmptyString => false
  | String _ _ => true
  end.

(** ToBoolean: [undefined], [null], [false], [+0], [-0], [NaN] and the
    empty string are falsy, everything else is truthy. *)
Definition truthy (v : JsVal) : bool :=
  match v with
  | JUndefined => false
  | JNull => false
  | JBool b => b
  | JNum n => number_truthy n
  | JStr s => string_truthy s
  | JArr _ => true
  | JObj _ => true
  end.

(** [a || b] *)
Definition js_or (a b : JsVal) : JsVal := if truthy a then a else b.

(** [a || b] on an optional string ([string | undefined]). *)
Definition opt_truthy (o : option string) : bool :=
  match o with
  | Some s => string_truthy s
  | None => false
  end.

Definition opt_or (o : option string) (d : string) : string :=
  match o with
  | Some s => if string_truthy s then s else d
  | None => d
  end.

(** Property read [o.key] on a list of own properties. *)
Fixpoint get_prop (key : string) (props : list (string * JsVal)) : JsVal :=
  match props with
  | [] => JUndefined
  | (k, v) :: rest => if String.eqb k key then v else get_prop key rest
  end.

(** [String.prototype.trim] on the ASCII white space and line terminators
    (tab, line feed, vertical tab, form feed, carriage return, space). *)
Definition is_space (c : ascii) : bool :=
  let n := nat_of_ascii c in
  Nat.eqb n 9 || Nat.eqb n 10 || Nat.eqb n 11 || Nat.eqb n 12
  || Nat.eqb n 13 || Nat.eqb n 32.

Fixpoint trim_start (s : string) : string :=
  match s with
  | EmptyString => EmptyString
  | String c rest => if is_space c then trim_start rest else s
  end.

Fixpoint trim_end (s : string) : string :=
  match s with
  | EmptyString => EmptyString
  | String c rest =>
      match trim_end rest with
      | EmptyString => if is_space c then EmptyString else String c EmptyString
      | t => String c t
      end
  end.

Definition trim (s : string) : string := trim_end (trim_start s).

(** Decimal rendering of a non-negative integer, as in
    [Date.now().toString()] and in a template literal. *)
Definition toString (n : N) : string := NilZero.string_of_uint (N.to_uint n).

Definition nl : string := String (ascii_of_nat 10) EmptyString.

(** ** Types of [src/types] *)

Inductive Role := user | assistant.

Module Message.
Record t := mk {
    id : string;
    role : Role;
    content : string;
    timestamp : N;          (* a [Date], as epoch milliseconds *)
    loading : bool          (* [loading?: boolean]; absent reads as false *)
}.
End Message.

Inductive ActivityStatus := running | completed | failed.

Module AgentActivity.
Record t := mk {
    agent : string;
    status : ActivityStatus;
    message : string;
    timestamp : string
}.
End AgentActivity.

Module GenerationResult.
Record t := mk {
    success : bool;
    code : option string;
    error : option string;
    attempts : option JsNumber;
    quality_score : option JsNumber;
    execution_time : option JsNumber;
    errors_fixed : option (list string);
    updates : option (list string);
    activities : option (list AgentActivity.t)  (* read as [result.activities] *)
}.
End GenerationResult.

(** Responses of [apiClient.getActivities] and [apiClient.submitFeedback]. *)
Record ActivitiesResponse := {
  resp_activities : list AgentActivity.t;
  resp_isGenerating : bool
}.

Record FeedbackResponse := {
  resp_success : bool;
  resp_message : string
}.

(** A thrown value: an [Error] with its message, or anything else. *)
Inductive Thrown :=
| ErrorObj (message : string)
| NotAnError.

(** How a promise settles. *)
Inductive Outcome (A : Type) :=
| Resolved (a : A)
| Rejected (e : Thrown).
Arguments Rejected {A} e.

(** A request handed to axios by [apiClient]. *)
Inductive Request :=
| PostGenerate (prompt : string) (api_key temperature max_attempts : JsVal)
| PostFeedback (code : string) (works : bool) (reason : option string)
| GetActivities.

(** Local state of [FeedbackForm]. *)
Record FeedbackFormState := {
  showDetailForm : bool;
  reason : string
}.

(** ** The store

    The state of one mounted [Generator] with its children, and of the part
    of the browser it talks to. *)
Record Store := mkStore {
  (* useState / useRef of Generator *)
  messages : list Message.t;
  loading : bool;
  lastGenerationResult : option GenerationResult.t;
  feedbackSubmitted : bool;
  error : option string;
  activities : list AgentActivity.t;
  activityPollingRef : option positive;
  (* values fixed by the last render *)
  apiKey : JsVal;
  effect_loading : bool;       (* [loading] as seen by the last run of the polling effect *)
  effect_cleanup : bool;       (* that run returned a cleanup function *)
  (* children *)
  input : string;              (* ChatInput *)
  feedbackForm : option FeedbackFormState;   (* None while not rendered *)
  (* browser *)
  localStorage : option (list (string * JsVal));
      (* the item 'pineForgeSettings' as JSON.parse reads it; Settings.handleSave
         is its only writer and stores JSON.stringify of a settings object *)
  intervals : list positive;       (* live setInterval handles *)
  next_interval : positive;
  requests : list Request;     (* requests issued so far, oldest first *)
  console : list Thrown;       (* console.error *)
  clock : nat -> N;            (* the i-th reading of the clock *)
  clock_reads : nat
}.

Definition set_messages (v : list Message.t) (s : Store) : Store :=
  mkStore
  v (loading s) (lastGenerationResult s) (feedbackSubmitted s) (error s)
    (activities s) (activityPollingRef s) (apiKey s) (effect_loading s)
    (effect_cleanup s) (input s) (feedbackForm s) (localStorage s)
    (intervals s) (next_interval s) (requests s) (console s) (clock s)
    (clock_reads s).

Definition set_loading (v : bool) (s : Store) : Store :=
  mkStore
  (messages s) v (lastGenerationResult s) (feedbackSubmitted s) (error s)
    (activities s) (activityPollingRef s) (apiKey s) (effect_loading s)
    (effect_cleanup s) (input s) (feedbackForm s) (localStorage s)
    (intervals s) (next_interval s) (requests s) (console s) (clock s)
    (clock_reads s).

Definition set_lastGenerationResult (v : option GenerationResult.t) (s : Store) : Store :=
  mkStore
  (messages s) (loading s) v (feedbackSubmitted s) (error s) (activities s)
    (activityPollingRef s) (apiKey s) (effect_loading s) (effect_cleanup s)
    (input s) (feedbackForm s) (localStorage s) (intervals s)
    (next_interval s) (requests s) (console s) (clock s) (clock_reads s).

Definition set_feedbackSubmitted (v : bool) (s : Store) : Store :=
  mkStore
  (messages s) (loading s) (lastGenerationResult s) v (error s)
    (activities s) (activityPollingRef s) (apiKey s) (effect_loading s)
    (effect_cleanup s) (input s) (feedbackForm s) (localStorage s)
    (intervals s) (next_interval s) (requests s) (console s) (clock s)
    (clock_reads s).

Definition set_error (v : option string) (s : Store) : Store :=
  mkStore
  (messages s) (loading s) (lastGenerationResult s) (feedbackSubmitted s) v
    (activities s) (activityPollingRef s) (apiKey s) (effect_loading s)
    (effect_cleanup s) (input s) (feedbackForm s) (localStorage s)
    (intervals s) (next_interval s) (requests s) (console s) (clock s)
    (clock_reads s).

Definition set_activities (v : list AgentActivity.t) (s : Store) : Store :=
  mkStore
  (messages s) (loading s) (lastGenerationResult s) (feedbackSubmitted s)
    (error s) v (activityPollingRef s) (apiKey s) (effect_loading s)
    (effect_cleanup s) (input s) (feedbackForm s) (localStorage s)
    (intervals s) (next_interval s) (requests s) (console s) (clock s)
    (clock_reads s).

Definition set_activityPollingRef (v : option positive) (s : Store) : Store :=
  mkStore
  (messages s) (loading s) (lastGenerationResult s) (feedbackSubmitted s)
    (error s) (activities s) v (apiKey s) (effect_loading s)
    (effect_cleanup s) (input s) (feedbackForm s) (localStorage s)
    (intervals s) (next_interval s) (requests s) (console s) (clock s)
    (clock_reads s).

Definition set_apiKey (v : JsVal) (s : Store) : Store :=
  mkStore
  (messages s) (loading s) (lastGenerationResult s) (feedbackSubmitted s)
    (error s) (activities s) (activityPollingRef s) v (effect_loading s)
    (effect_cleanup s) (input s) (feedbackForm s) (localStorage s)
    (intervals s) (next_interval s) (requests s) (console s) (clock s)
    (clock_reads s).

Definition set_effect_loading (v : bool) (s : Store) : Store :=
  mkStore
  (messages s) (loading s) (lastGenerationResult s) (feedbackSubmitted s)
    (error s) (activities s) (activityPollingRef s) (apiKey s) v
    (effect_cleanup s) (input s) (feedbackForm s) (localStorage s)
    (intervals s) (next_interval s) (requests s) (console s) (clock s)
    (clock_reads s).

Definition set_effect_cleanup (v : bool) (s : Store) : Store :=
  mkStore
  (messages s) (loading s) (lastGenerationResult s) (feedbackSubmitted s)
    (error s) (activities s) (activityPollingRef s) (apiKey s)
    (effect_loading s) v (input s) (feedbackForm s) (localStorage s)
    (intervals s) (next_interval s) (requests s) (console s) (clock s)
    (clock_reads s).

Definition set_input (v : string) (s : Store) : Store :=
  mkStore
  (messages s) (loading s) (lastGenerationResult s) (feedbackSubmitted s)
    (error s) (activities s) (activityPollingRef s) (apiKey s)
    (effect_loading s) (effect_cleanup s) v (feedbackForm s)
    (localStorage s) (intervals s) (next_interval s) (requests s)
    (console s) (clock s) (clock_reads s).

Definition set_feedbackForm (v : option FeedbackFormState) (s : Store) : Store :=
  mkStore
  (messages s) (loading s) (lastGenerationResult s) (feedbackSubmitted s)
    (error s) (activities s) (activityPollingRef s) (apiKey s)
    (effect_loading s) (effect_cleanup s) (input s) v (localStorage s)
    (intervals s) (next_interval s) (requests s) (console s) (clock s)
    (clock_reads s).

Definition set_localStorage (v : option (list (string * JsVal))) (s : Store) : Store :=
  mkStore
  (messages s) (loading s) (lastGenerationResult s) (feedbackSubmitted s)
    (error s) (activities s) (activityPollingRef s) (apiKey s)
    (effect_loading s) (effect_cleanup s) (input s) (feedbackForm s) v
    (intervals s) (next_interval s) (requests s) (console s) (clock s)
    (clock_reads s).

Definition set_intervals (v : list positive) (s : Store) : Store :=
  mkStore
  (messages s) (loading s) (lastGenerationResult s) (feedbackSubmitted s)
    (error s) (activities s) (activityPollingRef s) (apiKey s)
    (effect_loading s) (effect_cleanup s) (input s) (feedbackForm s)
    (localStorage s) v (next_interval s) (requests s) (console s) (clock s)
    (clock_reads s).

Definition set_next_interval (v : positive) (s : Store) : Store :=
  mkStore
  (messages s) (loading s) (lastGenerationResult s) (feedbackSubmitted s)
    (error s) (activities s) (activityPollingRef s) (apiKey s)
    (effect_loading s) (effect_cleanup s) (input s) (feedbackForm s)
    (localStorage s) (intervals s) v (requests s) (console s) (clock s)
    (clock_reads s).

Definition set_requests (v : list Request) (s : Store) : Store :=
  mkStore
  (messages s) (loading s) (lastGenerationResult s) (feedbackSubmitted s)
    (error s) (activities s) (activityPollingRef s) (apiKey s)
    (effect_loading s) (effect_cleanup s) (input s) (feedbackForm s)
    (localStorage s) (intervals s) (next_interval s) v (console s)
    (clock s) (clock_reads s).

Definition set_console (v : list Thrown) (s : Store) : Store :=
  mkStore
  (messages s) (loading s) (lastGenerationResult s) (feedbackSubmitted s)
    (error s) (activities s) (activityPollingRef s) (apiKey s)
    (effect_loading s) (effect_cleanup s) (input s) (feedbackForm s)
    (localStorage s) (intervals s) (next_interval s) (requests s) v
    (clock s) (clock_reads s).

Definition set_clock (v : nat -> N) (s : Store) : Store :=
  mkStore
  (messages s) (loading s) (lastGenerationResult s) (feedbackSubmitted s)
    (error s) (activities s) (activityPollingRef s) (apiKey s)
    (effect_loading s) (effect_cleanup s) (input s) (feedbackForm s)
    (localStorage s) (intervals s) (next_interval s) (requests s)
    (console s) v (clock_reads s).

Definition set_clock_reads (v : nat) (s : Store) : Store :=
  mkStore
  (messages s) (loading s) (lastGenerationResult s) (feedbackSubmitted s)
    (error s) (activities s) (activityPollingRef s) (apiKey s)
    (effect_loading s) (effect_cleanup s) (input s) (feedbackForm s)
    (localStorage s) (intervals s) (next_interval s) (requests s)
    (console s) (clock s) v.


(** ** Asynchronous procedures

    The body of an [async] function: state updates and reads, up to the
    next [await] of a transport call, whose continuation receives the way
    the promise settled.  [Call] invokes another async function without
    awaiting it: the callee runs up to its first [await], then the caller
    goes on. *)
Inductive Proc : Type :=
| Done
| Throw (e : Thrown)
| Upd (f : Store -> Store) (k : Proc)
| Get (k : Store -> Proc)
| AwaitGenerate (k : Outcome GenerationResult.t -> Proc)
| AwaitActivities (k : Outcome ActivitiesResponse -> Proc)
| AwaitFeedback (k : Outcome FeedbackResponse -> Proc)
| Call (callee : Proc) (k : Proc).

(** [p; q] *)
Fixpoint seq (p q : Proc) : Proc :=
  match p with
  | Done => q
  | Throw e => Throw e
  | Upd f k => Upd f (seq k q)
  | Get k => Get (fun s => seq (k s) q)
  | AwaitGenerate k => AwaitGenerate (fun o => seq (k o) q)
  | AwaitActivities k => AwaitActivities (fun o => seq (k o) q)
  | AwaitFeedback k => AwaitFeedback (fun o => seq (k o) q)
  | Call c k => Call c (seq k q)
  end.

(** [try { p } catch (err) { h err }]; a rejection inside an un-awaited
    callee is not caught by the caller. *)
Fixpoint try_catch (p : Proc) (h : Thrown -> Proc) : Proc :=
  match p with
  | Done => Done
  | Throw e => h e
  | Upd f k => Upd f (try_catch k h)
  | Get k => Get (fun s => try_catch (k s) h)
  | AwaitGenerate k => AwaitGenerate (fun o => try_catch (k o) h)
  | AwaitActivities k => AwaitActivities (fun o => try_catch (k o) h)
  | AwaitFeedback k => AwaitFeedback (fun o => try_catch (k o) h)
  | Call c k => Call c (try_catch k h)
  end.

(** [try { p } finally { fin }] *)
Fixpoint try_finally (p : Proc) (fin : Proc) : Proc :=
  match p with
  | Done => fin
  | Throw e => seq fin (Throw e)
  | Upd f k => Upd f (try_finally k fin)
  | Get k => Get (fun s => try_finally (k s) fin)
  | AwaitGenerate k => AwaitGenerate (fun o => try_finally (k o) fin)
  | AwaitActivities k => AwaitActivities (fun o => try_finally (k o) fin)
  | AwaitFeedback k => AwaitFeedback (fun o => try_finally (k o) fin)
  | Call c k => Call c (try_finally k fin)
  end.

Declare Scope proc_scope.
Delimit Scope proc_scope with proc.
Bind Scope proc_scope with Proc.
Notation "f ;; k" := (Upd f k)
  (at level 61, right associativity) : proc_scope.
Notation "'let*' x ':=' c 'in' k" := (c (fun x => k))
  (at level 10, x name, c at level 100, k at level 200) : proc_scope.
Local Open Scope proc_scope.

Definition read {A : Type} (proj : Store -> A) (k : A -> Proc) : Proc :=
  Get (fun s => k (proj s)).

(** [Date.now()] and [new Date()]: the next reading of the clock. *)
Definition Date_now (k : N -> Proc) : Proc :=
  Get (fun s =>
    set_clock_reads (S (clock_reads s)) ;; k (clock s (clock_reads s))).

(** The state setters of [Generator]; [setMessages] is always called with
    an updater function. *)
Definition setError := set_error.
Definition setFeedbackSubmitted := set_feedbackSubmitted.
Definition setLastGenerationResult := set_lastGenerationResult.
Definition setLoading := set_loading.
Definition setActivities := set_activities.
Definition setMessages (u : list Message.t -> list Message.t) (s : Store) : Store :=
  set_messages (u (messages s)) s.
Definition setInput := set_input.

(** ** The transport client [apiClient] *)

Definition post (r : Request) (s : Store) : Store :=
  set_requests (requests s ++ [r]) s.

(** [await apiClient.generateScript(prompt, apiKey, temperature, maxAttempts)] *)
Definition apiClient_generateScript (prompt : string)
    (apiKey temperature maxAttempts : JsVal)
    (k : GenerationResult.t -> Proc) : Proc :=
  post (PostGenerate prompt apiKey temperature maxAttempts) ;;
  AwaitGenerate (fun o =>
    match o with
    | Resolved r => k r
    | Rejected e => Throw e
    end).

(** [await apiClient.submitFeedback(code, works, reason)] *)
Definition apiClient_submitFeedback (code : string) (works : bool)
    (reason : option string) (k : FeedbackResponse -> Proc) : Proc :=
  post (PostFeedback code works reason) ;;
  AwaitFeedback (fun o =>
    match o with
    | Resolved r => k r
    | Rejected e => Throw e
    end).

(** [await apiClient.getActivities()] *)
Definition apiClient_getActivities (k : ActivitiesResponse -> Proc) : Proc :=
  post GetActivities ;;
  AwaitActivities (fun o =>
    match o with
    | Resolved r => k r
    | Rejected e => Throw e
    end).

(** ** [Generator] *)

(** [localStorage.getItem('pineForgeSettings') ? JSON.parse(...).apiKey : ''] *)
Definition render_apiKey (item : option (list (string * JsVal))) : JsVal :=
  match item with
  | Some settings => get_prop "apiKey" settings
  | None => JStr ""
  end.

(** [JSON.parse(localStorage.getItem('pineForgeSettings') || '{}')] *)
Definition parse_settings (item : option (list (string * JsVal)))
  : list (string * JsVal) :=
  match item with
  | Some settings => settings
  | None => []
  end.

Definition configErrorMsg : string :=
  "Please add your API key in Settings to start.".

Definition loadingContent : string := "Generating your Pine Script...".

(** A template literal renders an absent string as [undefined]. *)
Definition interpolate (o : option string) : string :=
  match o with
  | Some s => s
  | None => "undefined"
  end.

Definition successContent (code : option string) : string :=
  "✅ Generated successfully!" ++ nl ++ nl ++ "```pine" ++ nl
  ++ interpolate code ++ nl ++ "```".

Definition errorContent (errorMessage : string) : string :=
  "❌ " ++ errorMessage.

(** [err instanceof Error ? err.message : fallback] *)
Definition message_or (err : Thrown) (fallback : string) : string :=
  match err with
  | ErrorObj m => m
  | NotAnError => fallback
  end.

Definition append (m : Message.t) (prev : list Message.t) : list Message.t :=
  prev ++ [m].

(** [prev.filter((m) => m.id !== id)] *)
Definition without (id : string) (prev : list Message.t) : list Message.t :=
  filter (fun m => negb (String.eqb (Message.id m) id)) prev.

(** The two blocks of [handleSubmitPrompt] that run once the generate call
    has settled: the rest of the [try] block after the [await], and the
    [catch] block. *)
Definition after_generate (loadingMessage : Message.t)
    (result : GenerationResult.t) : Proc :=
  seq
    match GenerationResult.activities result with
    | Some acts => setActivities acts ;; Done
    | None => Done
    end
    (setMessages (without (Message.id loadingMessage)) ;;
     if GenerationResult.success result
        && opt_truthy (GenerationResult.code result)
     then
       let* now := Date_now in
       let* date := Date_now in
       let successMsg :=
         Message.mk ("success-" ++ toString now) assistant
           (successContent (GenerationResult.code result)) date false in
       setMessages (append successMsg) ;;
       setLastGenerationResult (Some result) ;;
       Done
     else
       Throw (ErrorObj
         (opt_or (GenerationResult.error result) "Failed to generate"))).

Definition catch_generate (loadingMessage : Message.t) (err : Thrown) : Proc :=
  let errorMessage := message_or err "An error occurred" in
  setError (Some errorMessage) ;;
  setMessages (without (Message.id loadingMessage)) ;;
  let* now := Date_now in
  let* date := Date_now in
  let errorMsg :=
    Message.mk ("error-" ++ toString now) assistant
      (errorContent errorMessage) date false in
  setMessages (append errorMsg) ;;
  Done.

Definition handleSubmitPrompt (prompt : string) : Proc :=
  let* apiKey := read apiKey in
  setError None ;;
  setFeedbackSubmitted false ;;
  setLastGenerationResult None ;;
  let* now := Date_now in
  let* date := Date_now in
  let userMessage := Message.mk (toString now) user prompt date false in
  setMessages (append userMessage) ;;
  if negb (truthy apiKey) then
    let errorMsg := configErrorMsg in
    setError (Some errorMsg) ;;
    let* now := Date_now in
    let* date := Date_now in
    let assistantMessage :=
      Message.mk ("error-" ++ toString now) assistant errorMsg date false in
    setMessages (append assistantMessage) ;;
    Done
  else
    let* now := Date_now in
    let* date := Date_now in
    let loadingMessage :=
      Message.mk ("loading-" ++ toString now) assistant loadingContent date true in
    setMessages (append loadingMessage) ;;
    setLoading true ;;
    setActivities [] ;;
    try_finally
      (try_catch
         (let* settings := read (fun s => parse_settings (localStorage s)) in
          let* result :=
            apiClient_generateScript prompt apiKey
              (js_or (get_prop "temperature" settings) (JNum lit_0_6))
              (js_or (get_prop "maxAttempts" settings) (JNum lit_5)) in
          after_generate loadingMessage result)
         (catch_generate loadingMessage))
      (setLoading false ;; Done).

Definition feedbackContent (works : bool) : string :=
  if works then "✨ Thanks for the feedback!"
  else "💡 Thank you for reporting this.".

(** [lastGenerationResult?.code] *)
Definition result_code (r : option GenerationResult.t) : option string :=
  match r with
  | Some res => GenerationResult.code res
  | None => None
  end.

(** The blocks of [handleSubmitFeedback] after its [await], and its
    [catch] block. *)
Definition after_feedback (works : bool) : Proc :=
  setFeedbackSubmitted true ;;
  let* now := Date_now in
  let* date := Date_now in
  let feedbackMsg :=
    Message.mk ("feedback-" ++ toString now) assistant
      (feedbackContent works) date false in
  setMessages (append feedbackMsg) ;;
  Done.

Definition catch_feedback (err : Thrown) : Proc :=
  setError (Some (message_or err "Failed to submit feedback")) ;;
  Done.

Definition handleSubmitFeedback (works : bool) (reason : option string) : Proc :=
  try_catch
    (let* code := read (fun s => result_code (lastGenerationResult s)) in
     match code with
     | Some code =>
         if string_truthy code then
           let* _ := apiClient_submitFeedback code works reason in
           after_feedback works
         else Done
     | None => Done
     end)
    catch_feedback.

(** The callback of the polling interval. *)
Definition after_activities (response : ActivitiesResponse) : Proc :=
  setActivities (resp_activities response) ;;
  Done.

Definition catch_activities (err : Thrown) : Proc :=
  (fun s => set_console (console s ++ [err]) s) ;;
  Done.

Definition pollActivities : Proc :=
  try_catch
    (let* response := apiClient_getActivities in
     after_activities response)
    catch_activities.

(** ** [ChatInput] *)

(** [handleSubmit]; the props are [disabled = !apiKey] and
    [loading = loading] of the parent's last render. *)
Definition ChatInput_handleSubmit : Proc :=
  let* input := read input in
  let* disabled := read (fun s => negb (truthy (apiKey s))) in
  let* loading := read loading in
  if string_truthy (trim input) && negb disabled && negb loading then
    Call (handleSubmitPrompt input) (setInput "" ;; Done)
  else Done.

(** ** [FeedbackForm] *)

Definition setShowDetailForm (v : bool) (s : Store) : Store :=
  set_feedbackForm
    (option_map (fun f => {| showDetailForm := v; reason := reason f |})
       (feedbackForm s)) s.

Definition setReason (v : string) (s : Store) : Store :=
  set_feedbackForm
    (option_map (fun f => {| showDetailForm := showDetailForm f; reason := v |})
       (feedbackForm s)) s.

Definition form_reason (s : Store) : string :=
  match feedbackForm s with
  | Some f => reason f
  | None => ""
  end.

Definition handlePositiveFeedback : Proc :=
  Call (handleSubmitFeedback true None)
    (setShowDetailForm false ;; setReason "" ;; Done).

Definition handleNegativeFeedback : Proc :=
  setShowDetailForm true ;; Done.

Definition handleDetailedSubmit : Proc :=
  let* reason := read form_reason in
  Call (handleSubmitFeedback false (Some reason))
    (setShowDetailForm false ;; setReason "" ;; Done).

Definition handleBack : Proc :=
  setShowDetailForm false ;; setReason "" ;; Done.

(** ** Rendering and effects *)

Definition clearInterval (h : positive) (s : Store) : Store :=
  set_intervals (filter (fun h' => negb (Pos.eqb h' h)) (intervals s)) s.

(** [activityPollingRef.current = setInterval(pollActivities, 500)] *)
Definition start_polling (s : Store) : Store :=
  let h := next_interval s in
  set_activityPollingRef (Some h)
    (set_next_interval (Pos.succ h) (set_intervals (intervals s ++ [h]) s)).

(** The cleanup returned by the polling effect. *)
Definition polling_cleanup (s : Store) : Store :=
  match activityPollingRef s with
  | Some h => clearInterval h s
  | None => s
  end.

(** [useEffect(..., [loading])]: when [loading] differs from the value the
    effect last ran with, the previous cleanup runs, then the effect. *)
Definition polling_effect (s : Store) : Store :=
  if Bool.eqb (loading s) (effect_loading s) then s
  else
    let s1 := if effect_cleanup s then polling_cleanup s else s in
    let s2 :=
      if loading s1 then set_effect_cleanup true (start_polling s1)
      else set_effect_cleanup false s1 in
    set_effect_loading (loading s) s2.

(** [{lastGenerationResult && !feedbackSubmitted && <FeedbackForm .../>}]:
    the form keeps its state while rendered and loses it when removed. *)
Definition render_feedbackForm (s : Store) : Store :=
  match lastGenerationResult s with
  | Some _ =>
      if negb (feedbackSubmitted s) then
        match feedbackForm s with
        | Some _ => s
        | None =>
            set_feedbackForm
              (Some {| showDetailForm := false; reason := "" |}) s
        end
      else set_feedbackForm None s
  | None => set_feedbackForm None s
  end.

(** One render of [Generator] followed by its effects. *)
Definition commit (s : Store) : Store :=
  render_feedbackForm
    (polling_effect (set_apiKey (render_apiKey (localStorage s)) s)).

(** ** The page as a transition system *)

(** A suspended [await] with the rest of its async function. *)
Inductive Waiter :=
| WGenerate (k : Outcome GenerationResult.t -> Proc)
| WActivities (k : Outcome ActivitiesResponse -> Proc)
| WFeedback (k : Outcome FeedbackResponse -> Proc).

(** Runs a procedure until every branch of it is finished or suspended. *)
Fixpoint run (p : Proc) (s : Store) : Store * list Waiter :=
  match p with
  | Done => (s, [])
  | Throw _ => (s, [])     (* a rejected promise nobody awaits *)
  | Upd f k => run k (f s)
  | Get k => run (k s) s
  | AwaitGenerate k => (s, [WGenerate k])
  | AwaitActivities k => (s, [WActivities k])
  | AwaitFeedback k => (s, [WFeedback k])
  | Call c k =>
      let (s1, ws1) := run c s in
      let (s2, ws2) := run k s1 in
      (s2, ws1 ++ ws2)
  end.

Record Sys := {
  store : Store;
  waiters : list Waiter
}.

Inductive Reply :=
| RGenerate (o : Outcome GenerationResult.t)
| RActivities (o : Outcome ActivitiesResponse)
| RFeedback (o : Outcome FeedbackResponse).

Inductive Event :=
| TypeInput (text : string)     (* ChatInput textarea, onChange *)
| SubmitChat                    (* ChatInput form submit, or Ctrl+Enter *)
| ThumbsUp                      (* FeedbackForm, "Yes, it works!" *)
| ThumbsDown                    (* FeedbackForm, "No, it failed" *)
| TypeReason (text : string)    (* FeedbackForm textarea, onChange *)
| SubmitDetail                  (* FeedbackForm, "Submit Feedback" *)
| Back                          (* FeedbackForm, "Back" *)
| Tick (h : positive)           (* the interval h fires *)
| Settle (i : nat) (r : Reply). (* the i-th outstanding request settles *)

Definition resume (w : Waiter) (r : Reply) : option Proc :=
  match w, r with
  | WGenerate k, RGenerate o => Some (k o)
  | WActivities k, RActivities o => Some (k o)
  | WFeedback k, RFeedback o => Some (k o)
  | _, _ => None
  end.

Fixpoint remove_nth {A : Type} (i : nat) (l : list A) : list A :=
  match l, i with
  | [], _ => []
  | _ :: rest, O => rest
  | x :: rest, S j => x :: remove_nth j rest
  end.

(** The handler an event invokes, when the control it comes from is
    rendered and enabled. *)
Definition handler (e : Event) (sys : Sys) : option Proc :=
  let s := store sys in
  match e with
  | TypeInput text =>
      (* disabled={disabled || loading} *)
      if negb (truthy (apiKey s)) || loading s then None
      else Some (setInput text ;; Done)
  | SubmitChat => Some ChatInput_handleSubmit
  | ThumbsUp =>
      match feedbackForm s with
      | Some f =>
          if showDetailForm f || loading s then None
          else Some handlePositiveFeedback
      | None => None
      end
  | ThumbsDown =>
      match feedbackForm s with
      | Some f =>
          if showDetailForm f || loading s then None
          else Some handleNegativeFeedback
      | None => None
      end
  | TypeReason text =>
      match feedbackForm s with
      | Some f => if showDetailForm f then Some (setReason text ;; Done) else None
      | None => None
      end
  | SubmitDetail =>
      match feedbackForm s with
      | Some f =>
          (* disabled={loading || !reason.trim()} *)
          if negb (showDetailForm f) || loading s
             || negb (string_truthy (trim (reason f)))
          then None
          else Some handleDetailedSubmit
      | None => None
      end
  | Back =>
      match feedbackForm s with
      | Some f =>
          if negb (showDetailForm f) || loading s then None
          else Some handleBack
      | None => None
      end
  | Tick h =>
      if existsb (Pos.eqb h) (intervals s) then Some (Call pollActivities Done)
      else None
  | Settle i r =>
      match nth_error (waiters sys) i with
      | Some w => resume w r
      | None => None
      end
  end.

Definition remaining (e : Event) (ws : list Waiter) : list Waiter :=
  match e with
  | Settle i _ => remove_nth i ws
  | _ => ws
  end.

(** One event: its handler runs, then React renders and runs the effects. *)
Definition step (e : Event) (sys : Sys) : option Sys :=
  match handler e sys with
  | Some p =>
      let (s', ws) := run p (store sys) in
      Some {| store := commit s'; waiters := remaining e (waiters sys) ++ ws |}
  | None => None
  end.

Fixpoint steps (es : list Event) (sys : Sys) : option Sys :=
  match es with
  | [] => Some sys
  | e :: rest =>
      match step e sys with
      | Some sys' => steps rest sys'
      | None => None
      end
  end.

(** A freshly mounted page. *)
Definition mount (item : option (list (string * JsVal))) (clk : nat -> N) : Sys :=
  {| store :=
       {| messages := [];
          loading := false;
          lastGenerationResult := None;
          feedbackSubmitted := false;
          error := None;
          activities := [];
          activityPollingRef := None;
          apiKey := render_apiKey item;
          effect_loading := false;
          effect_cleanup := false;
          input := "";
          feedbackForm := None;
          localStorage := item;
          intervals := [];
          next_interval := 1%positive;
          requests := [];
          console := [];
          clock := clk;
          clock_reads := 0 |};
     waiters := [] |}.

Inductive reachable : Sys -> Prop :=
| reach_mount : forall item clk, reachable (mount item clk)
| reach_step : forall sys e sys',
    reachable sys -> step e sys = Some sys' -> reachable sys'.

(** ** Resumptions

    What each kind of suspended handler does when its request settles. *)

Definition generate_settled (loadingMessage : Message.t)
    (o : Outcome GenerationResult.t) : Proc :=
  try_finally
    (try_catch
       match o with
       | Resolved r => after_generate loadingMessage r
       | Rejected e => Throw e
       end
       (catch_generate loadingMessage))
    (setLoading false ;; Done).

Definition feedback_settled (works : bool) (o : Outcome FeedbackResponse) : Proc :=
  try_catch
    match o with
    | Resolved _ => after_feedback works
    | Rejected e => Throw e
    end
    catch_feedback.

Definition activities_settled (o : Outcome ActivitiesResponse) : Proc :=
  try_catch
    match o with
    | Resolved r => after_activities r
    | Rejected e => Throw e
    end
    catch_activities.

(** The loading message a submission creates in store [s]: its id and date
    are the third and fourth readings of the clock from there. *)
Definition loadingMessage_at (s : Store) : Message.t :=
  Message.mk ("loading-" ++ toString (clock s (2 + clock_reads s)))
    assistant loadingContent (clock s (3 + clock_reads s)) true.

Lemma run_handleSubmitPrompt_waiters : forall prompt s,
  snd (run (handleSubmitPrompt prompt) s) =
  if truthy (apiKey s) then [WGenerate (generate_settled (loadingMessage_at s))]
  else [].
Proof.
  intros prompt s. unfold handleSubmitPrompt, read. cbn.
  destruct (truthy (apiKey s)); reflexivity.
Qed.


(** ** The handlers in direct style *)

(** The store each synchronous stretch of a handler leaves, written as a
    function of the store it starts from; each is proved below to be what
    [run] computes. *)

Definition userMessage_at (prompt : string) (s : Store) : Message.t :=
  Message.mk (toString (clock s (clock_reads s))) user prompt
    (clock s (1 + clock_reads s)) false.

Definition configMessage_at (s : Store) : Message.t :=
  Message.mk ("error-" ++ toString (clock s (2 + clock_reads s))) assistant
    configErrorMsg (clock s (3 + clock_reads s)) false.

Definition generate_request (prompt : string) (s : Store) : Request :=
  let settings := parse_settings (localStorage s) in
  PostGenerate prompt (apiKey s)
    (js_or (get_prop "temperature" settings) (JNum lit_0_6))
    (js_or (get_prop "maxAttempts" settings) (JNum lit_5)).

(** [handleSubmitPrompt] without a key. *)
Definition submit_refused (prompt : string) (s : Store) : Store :=
  set_messages
    ((messages s ++ [userMessage_at prompt s]) ++ [configMessage_at s])
    (set_clock_reads (4 + clock_reads s)
       (set_error (Some configErrorMsg)
          (set_lastGenerationResult None (set_feedbackSubmitted false s)))).

(** [handleSubmitPrompt] with a key, up to its [await]. *)
Definition submit_started (prompt : string) (s : Store) : Store :=
  set_requests (requests s ++ [generate_request prompt s])
    (set_activities []
       (set_loading true
          (set_messages
             ((messages s ++ [userMessage_at prompt s]) ++ [loadingMessage_at s])
             (set_clock_reads (4 + clock_reads s)
                (set_error None
                   (set_lastGenerationResult None
                      (set_feedbackSubmitted false s))))))).

Definition has_code (r : GenerationResult.t) : bool :=
  GenerationResult.success r && opt_truthy (GenerationResult.code r).

(** How a generate call settled, as [handleSubmitPrompt] tells it: a result
    with code, or a failure with the message the error turn shows. *)
Inductive Verdict :=
| Generated (r : GenerationResult.t)
| Failed (msg : string).

Definition verdict (o : Outcome GenerationResult.t) : Verdict :=
  match o with
  | Resolved r =>
      if has_code r then Generated r
      else Failed (opt_or (GenerationResult.error r) "Failed to generate")
  | Rejected e => Failed (message_or e "An error occurred")
  end.

Definition outcome_activities (o : Outcome GenerationResult.t) (s : Store)
  : list AgentActivity.t :=
  match o with
  | Resolved r =>
      match GenerationResult.activities r with
      | Some acts => acts
      | None => activities s
      end
  | Rejected _ => activities s
  end.

(** The conversation once the pending turn of [lm] is filtered out; a
    result without code goes through the filter twice, in the [try] block
    and in the [catch] block. *)
Definition outcome_kept (lm : Message.t) (o : Outcome GenerationResult.t)
    (s : Store) : list Message.t :=
  match o with
  | Resolved r =>
      if has_code r then without (Message.id lm) (messages s)
      else without (Message.id lm) (without (Message.id lm) (messages s))
  | Rejected _ => without (Message.id lm) (messages s)
  end.

Definition terminal_turn (o : Outcome GenerationResult.t) (s : Store) : Message.t :=
  match verdict o with
  | Generated r =>
      Message.mk ("success-" ++ toString (clock s (clock_reads s))) assistant
        (successContent (GenerationResult.code r))
        (clock s (1 + clock_reads s)) false
  | Failed msg =>
      Message.mk ("error-" ++ toString (clock s (clock_reads s))) assistant
        (errorContent msg) (clock s (1 + clock_reads s)) false
  end.

(** [handleSubmitPrompt] from its [await] to its end. *)
Definition generate_outcome (lm : Message.t) (o : Outcome GenerationResult.t)
    (s : Store) : Store :=
  set_loading false
    (set_lastGenerationResult
       match verdict o with
       | Generated r => Some r
       | Failed _ => lastGenerationResult s
       end
       (set_messages (outcome_kept lm o s ++ [terminal_turn o s])
          (set_clock_reads (2 + clock_reads s)
             (set_error
                match verdict o with
                | Generated _ => error s
                | Failed msg => Some msg
                end
                (set_activities (outcome_activities o s) s))))).

(** [handleSubmitFeedback] up to its [await]. *)
Definition feedback_code (s : Store) : option string :=
  match result_code (lastGenerationResult s) with
  | Some code => if string_truthy code then Some code else None
  | None => None
  end.

(** [handleSubmitFeedback] from its [await] to its end. *)
Definition feedback_outcome (works : bool) (o : Outcome FeedbackResponse)
    (s : Store) : Store :=
  match o with
  | Resolved _ =>
      set_messages
        (messages s ++
         [Message.mk ("feedback-" ++ toString (clock s (clock_reads s)))
            assistant (feedbackContent works) (clock s (1 + clock_reads s))
            false])
        (set_clock_reads (2 + clock_reads s) (set_feedbackSubmitted true s))
  | Rejected e =>
      set_error (Some (message_or e "Failed to submit feedback")) s
  end.

(** [pollActivities] from its [await] to its end. *)
Definition activities_outcome (o : Outcome ActivitiesResponse) (s : Store) : Store :=
  match o with
  | Resolved r => set_activities (resp_activities r) s
  | Rejected e => set_console (console s ++ [e]) s
  end.

(** The guard of [ChatInput.handleSubmit]. *)
Definition chat_accepts (s : Store) : bool :=
  string_truthy (trim (input s)) && negb (negb (truthy (apiKey s)))
  && negb (loading s).

(** The handlers of [FeedbackForm]. *)
Definition form_reset (s : Store) : Store :=
  setReason "" (setShowDetailForm false s).


(** ** The page's invariants *)

(** The handlers a request can be waiting for. *)
Inductive Tag :=
| TGenerate (lm : Message.t)
| TActivities
| TFeedback (works : bool).

Definition waiter_of (t : Tag) : Waiter :=
  match t with
  | TGenerate lm => WGenerate (generate_settled lm)
  | TActivities => WActivities activities_settled
  | TFeedback works => WFeedback (feedback_settled works)
  end.

Definition pending_of (t : Tag) : list Message.t :=
  match t with
  | TGenerate lm => [lm]
  | _ => []
  end.

Definition pendings (tags : list Tag) : list Message.t :=
  flat_map pending_of tags.

(** A pending turn is recognised by its id, as the filter of
    [handleSubmitPrompt] does. *)
Definition is_loading_id (id : string) : bool := String.prefix "loading-" id.

Definition pending_turn (m : Message.t) : bool := is_loading_id (Message.id m).

(** What every request the page issues satisfies. *)
Definition request_ok (r : Request) : bool :=
  match r with
  | PostGenerate prompt key temperature maxAttempts =>
      string_truthy (trim prompt) && truthy key && truthy temperature
      && truthy maxAttempts
  | PostFeedback code works reason =>
      string_truthy code &&
      match reason with
      | Some why => negb works && string_truthy (trim why)
      | None => works
      end
  | GetActivities => true
  end.

Definition is_generate (w : Waiter) : bool :=
  match w with
  | WGenerate _ => true
  | _ => false
  end.

Record Stable (s : Store) (tags : list Tag) : Prop := {
  st_pending : filter pending_turn (messages s) = pendings tags;
  st_one : List.length (pendings tags) = if loading s then 1 else 0;
  st_flags : Forall (fun m => Message.loading m = pending_turn m) (messages s);
  st_result : forall r, lastGenerationResult s = Some r ->
              loading s = false /\ has_code r = true;
  st_requests : forallb request_ok (requests s) = true
}.

Definition polling_ok (s : Store) : Prop :=
  effect_loading s = loading s
  /\ if loading s
     then exists h, intervals s = [h] /\ activityPollingRef s = Some h
                    /\ effect_cleanup s = true
     else intervals s = [] /\ effect_cleanup s = false.

Record Inv (sys : Sys) : Prop := {
  inv_committed : commit (store sys) = store sys;
  inv_polling : polling_ok (store sys);
  inv_stable : exists tags,
      waiters sys = map waiter_of tags /\ Stable (store sys) tags
}.

(** The part of the store the handlers never write. *)
Definition frame (s s' : Store) : Prop :=
  intervals s' = intervals s
  /\ activityPollingRef s' = activityPollingRef s
  /\ effect_loading s' = effect_loading s
  /\ effect_cleanup s' = effect_cleanup s.

(** The part of the store the render never writes. *)
Definition same_session (s s' : Store) : Prop :=
  messages s' = messages s
  /\ loading s' = loading s
  /\ lastGenerationResult s' = lastGenerationResult s
  /\ feedbackSubmitted s' = feedbackSubmitted s
  /\ requests s' = requests s
  /\ activities s' = activities s
  /\ error s' = error s.


(** What one event does: the store its handler leaves, before the render,
    and the requests left waiting; one case per way through the handlers. *)
Inductive Effect (s : Store) (tags : list Tag)
  : Event -> Store -> list Tag -> Prop :=
| eff_type_input : forall text,
    negb (truthy (apiKey s)) || loading s = false ->
    Effect s tags (TypeInput text) (setInput text s) tags
| eff_chat_accepted :
    chat_accepts s = true ->
    Effect s tags SubmitChat (set_input "" (submit_started (input s) s))
      (tags ++ [TGenerate (loadingMessage_at s)])
| eff_chat_rejected :
    chat_accepts s = false ->
    Effect s tags SubmitChat s tags
| eff_thumbs_up_sent : forall f code,
    feedbackForm s = Some f -> showDetailForm f || loading s = false ->
    feedback_code s = Some code ->
    Effect s tags ThumbsUp (form_reset (post (PostFeedback code true None) s))
      (tags ++ [TFeedback true])
| eff_thumbs_up_idle : forall f,
    feedbackForm s = Some f -> showDetailForm f || loading s = false ->
    feedback_code s = None ->
    Effect s tags ThumbsUp (form_reset s) tags
| eff_thumbs_down : forall f,
    feedbackForm s = Some f -> showDetailForm f || loading s = false ->
    Effect s tags ThumbsDown (setShowDetailForm true s) tags
| eff_type_reason : forall f text,
    feedbackForm s = Some f -> showDetailForm f = true ->
    Effect s tags (TypeReason text) (setReason text s) tags
| eff_detail_sent : forall f code,
    feedbackForm s = Some f ->
    negb (showDetailForm f) || loading s = false ->
    string_truthy (trim (reason f)) = true ->
    feedback_code s = Some code ->
    Effect s tags SubmitDetail
      (form_reset (post (PostFeedback code false (Some (reason f))) s))
      (tags ++ [TFeedback false])
| eff_detail_idle : forall f,
    feedbackForm s = Some f ->
    negb (showDetailForm f) || loading s = false ->
    string_truthy (trim (reason f)) = true ->
    feedback_code s = None ->
    Effect s tags SubmitDetail (form_reset s) tags
| eff_back : forall f,
    feedbackForm s = Some f ->
    negb (showDetailForm f) || loading s = false ->
    Effect s tags Back (form_reset s) tags
| eff_tick : forall h,
    existsb (Pos.eqb h) (intervals s) = true ->
    Effect s tags (Tick h) (post GetActivities s) (tags ++ [TActivities])
| eff_generate : forall i lm o,
    nth_error tags i = Some (TGenerate lm) ->
    Effect s tags (Settle i (RGenerate o)) (generate_outcome lm o s)
      (remove_nth i tags)
| eff_activities : forall i o,
    nth_error tags i = Some TActivities ->
    Effect s tags (Settle i (RActivities o)) (activities_outcome o s)
      (remove_nth i tags)
| eff_feedback : forall i works o,
    nth_error tags i = Some (TFeedback works) ->
    Effect s tags (Settle i (RFeedback o)) (feedback_outcome works o s)
      (remove_nth i tags).

Definition after_effect (s' : Store) (tags' : list Tag) : Sys :=
  {| store := commit s'; waiters := map waiter_of tags' |}.

(** ** Sample pages *)

(** The page after a list of events that all fire; the page itself when
    one of them does not. *)
Definition after (es : list Event) (sys : Sys) : Sys :=
  match steps es sys with
  | Some sys' => sys'
  | None => sys
  end.

(** A page with a key, while its first generation is running and one
    activity poll is in flight. *)
Definition wall_clock (i : nat) : N := N.of_nat i + 1700000000000.

Definition sample_item : list (string * JsVal) :=
  [("apiKey", JStr "nvapi-key"); ("temperature", JNum (S754_zero false))].

Definition sample_page : Sys := mount (Some sample_item) wall_clock.

Definition sample_busy : Sys :=
  after [TypeInput "RSI scalper"; SubmitChat; Tick 1] sample_page.

Definition sample_result : GenerationResult.t :=
  GenerationResult.mk true (Some "strategy(...)") None None None None None None
    None.

(** The same page once the generation has returned code. *)
Definition sample_generated : Sys :=
  after [Settle 0 (RGenerate (Resolved sample_result))] sample_busy.

Definition sample_reported : Sys :=
  after [ThumbsDown; TypeReason "plot() is missing"; SubmitDetail]
    sample_generated.


(** [s.trim()] is empty exactly when [s] is blank. *)
Definition blank (s : string) : bool :=
  forallb is_space (list_ascii_of_string s).

Definition sample_typed : Sys := after [TypeInput "RSI scalper"] sample_page.


(** The turns of a conversation that are not pending. *)
Definition settled_turns (msgs : list Message.t) : list Message.t :=
  filter (fun m => negb (Message.loading m)) msgs.

Definition sample_thanked : Sys :=
  after [ThumbsUp] sample_generated.

Definition sample_ack : Event :=
  Settle 1 (RFeedback (Resolved {| resp_success := true; resp_message := "ok" |})).



(** ** [ChatMessage] *)

(** [s.includes(pat)] *)
Fixpoint includes (pat s : string) : bool :=
  String.prefix pat s
  || match s with
     | EmptyString => false
     | String _ rest => includes pat rest
     end.

Definition fence : string := "```".

Definition is_newline (c : ascii) : bool := Ascii.eqb c (ascii_of_nat 10).

Definition is_backtick (c : ascii) : bool := Ascii.eqb c (ascii_of_nat 96).

(** [s.split('\n')] *)
Fixpoint split_lines (s : string) : list string :=
  match s with
  | EmptyString => [EmptyString]
  | String c rest =>
      if is_newline c then EmptyString :: split_lines rest
      else
        match split_lines rest with
        | line :: lines => String c line :: lines
        | [] => [String c EmptyString]
        end
  end.

(** [s.replace(/```/g, '')]: every fence found from the left is removed. *)
Fixpoint strip_fences (s : string) : string :=
  match s with
  | EmptyString => EmptyString
  | String c1 r1 =>
      if is_backtick c1 then
        match r1 with
        | String c2 (String c3 r3) =>
            if is_backtick c2 && is_backtick c3 then strip_fences r3
            else String c1 (strip_fences r1)
        | _ => String c1 (strip_fences r1)
        end
      else String c1 (strip_fences r1)
  end.

(** What a message is rendered as: the lines of a code block with the text
    its Copy button puts on the clipboard, or a plain bubble. *)
Inductive Bubble :=
| CodeLines (lines : list string) (copied : string)
| Text (text : string).

Record ChatMessageView := {
  isAssistant : bool;
  avatar : string;
  bubble : Bubble
}.

Definition ChatMessage (message : Message.t) : ChatMessageView :=
  let isAssistant :=
    match Message.role message with
    | assistant => true
    | user => false
    end in
  let isCodeBlock := includes fence (Message.content message) in
  {| isAssistant := isAssistant;
     avatar := if isAssistant then "🤖" else "👤";
     bubble :=
       if isCodeBlock then
         CodeLines
           (filter (fun line => negb (includes fence line))
              (split_lines (Message.content message)))
           (trim (strip_fences (Message.content message)))
       else Text (Message.content message) |}.




(** ** The [Settings] page *)

(** [JSON.parse(JSON.stringify(v))]: a number that is not finite comes back
    as [null], a negative zero as zero; an [undefined] property is dropped
    and an [undefined] array item becomes [null]. *)
Definition json_number (n : JsNumber) : JsVal :=
  match n with
  | S754_nan => JNull
  | S754_infinity _ => JNull
  | S754_zero _ => JNum (S754_zero false)
  | S754_finite s m e => JNum (S754_finite s m e)
  end.

Fixpoint json_value (v : JsVal) : JsVal :=
  match v with
  | JNum n => json_number n
  | JArr items =>
      JArr (map (fun x => match x with
                          | JUndefined => JNull
                          | _ => json_value x
                          end) items)
  | JObj props =>
      JObj ((fix json_props (ps : list (string * JsVal)) :=
               match ps with
               | [] => []
               | (k, x) :: rest =>
                   match x with
                   | JUndefined => json_props rest
                   | _ => (k, json_value x) :: json_props rest
                   end
               end) props)
  | _ => v
  end.

Fixpoint json_props (ps : list (string * JsVal)) : list (string * JsVal) :=
  match ps with
  | [] => []
  | (k, x) :: rest =>
      match x with
      | JUndefined => json_props rest
      | _ => (k, json_value x) :: json_props rest
      end
  end.











(** * Properties *)

Arguments toString : simpl never.

(** A clock and stored settings used to instantiate the statements below. *)
Definition sample_clock (i : nat) : N := 1700000000000 + N.of_nat i.

Definition sample_settings : list (string * JsVal) :=
  [("apiKey", JStr "nvapi-key"); ("temperature", JNum (S754_zero false))].

(** ** Facts about the handlers, on any store *)

Lemma app_one_neq : forall (A : Type) (l : list A) (x : A), l ++ [x] <> l.
Proof.
  intros A l x H. apply (f_equal (@List.length A)) in H.
  rewrite length_app in H. simpl in H. lia.
Qed.

Lemma polling_effect_idle : forall s,
  effect_loading s = loading s -> polling_effect s = s.
Proof.
  intros s H. unfold polling_effect. rewrite H.
  now rewrite Bool.eqb_reflx.
Qed.

Lemma run_generate_settled_done : forall lm o s,
  loading (fst (run (generate_settled lm o) s)) = false
  /\ snd (run (generate_settled lm o) s) = [].
Proof.
  intros lm [r | e] s.
  - destruct r as [succ code err att q t ef up acts].
    unfold generate_settled, after_generate. cbn.
    destruct acts, succ, code as [[|c code]|]; cbn; auto.
  - cbn. auto.
Qed.

(** C1.  A prompt submitted while the configured API key is the empty
    string suspends on nothing and issues no request; it appends the user
    turn and then one assistant turn with the configuration message, sets the
    error to that message, leaves the result unset, and the next render
    neither starts nor touches a polling interval. *)
Theorem empty_api_key_halts : forall prompt s,
  apiKey s = JStr "" ->
  effect_loading s = loading s ->
  let r := run (handleSubmitPrompt prompt) s in
  let t := clock s in
  let n := clock_reads s in
  snd r = []
  /\ requests (fst r) = requests s
  /\ messages (fst r) =
       messages s ++
       [Message.mk (toString (t n)) user prompt (t (1 + n)) false;
        Message.mk ("error-" ++ toString (t (2 + n))) assistant
          configErrorMsg (t (3 + n)) false]
  /\ error (fst r) = Some configErrorMsg
  /\ lastGenerationResult (fst r) = None
  /\ loading (fst r) = loading s
  /\ intervals (commit (fst r)) = intervals s
  /\ next_interval (commit (fst r)) = next_interval s.
Proof.
  intros prompt s Hkey Hidle. unfold handleSubmitPrompt, read. cbn.
  rewrite Hkey. cbn.
  repeat split; try reflexivity; try (now rewrite <- app_assoc);
    unfold commit; rewrite polling_effect_idle by (cbn; assumption);
    reflexivity.
Qed.

Lemma empty_api_key_halts_witness :
  let s := store (mount None sample_clock) in
  apiKey s = JStr ""
  /\ effect_loading s = loading s
  /\ snd (run (handleSubmitPrompt "RSI scalper") s) = []
  /\ requests (fst (run (handleSubmitPrompt "RSI scalper") s)) = []
  /\ List.length (messages (fst (run (handleSubmitPrompt "RSI scalper") s))) = 2.
Proof.
  pose proof (empty_api_key_halts "RSI scalper"
                (store (mount None sample_clock)) eq_refl eq_refl) as H.
  cbv zeta in H. destruct H as (Hw & Hr & Hm & _).
  cbv zeta. split; [reflexivity | split; [reflexivity | ]].
  split; [exact Hw | split; [exact Hr | rewrite Hm; reflexivity]].
Defined.

(** A property absent from an object reads as [undefined], which is falsy. *)
Lemma get_prop_absent : forall key props,
  forallb (fun kv => negb (String.eqb (fst kv) key)) props = true ->
  get_prop key props = JUndefined.
Proof.
  intros key props. induction props as [| [k v] rest IH]; simpl.
  - reflexivity.
  - intro H. apply andb_true_iff in H. destruct H as [Hk Hrest].
    apply negb_true_iff in Hk. rewrite Hk. now apply IH.
Qed.

(** C10.  With a truthy API key the submission issues one generate request
    for the prompt and the key, whose temperature is the stored one, or 0.6
    when the stored settings have none or a falsy one, and whose maxAttempts
    is the stored one, or 5 when the stored settings have none or a falsy
    one. *)
Theorem generate_uses_default_settings : forall prompt s,
  truthy (apiKey s) = true ->
  let settings := parse_settings (localStorage s) in
  let absent key :=
    forallb (fun kv => negb (String.eqb (fst kv) key)) settings = true in
  exists temperature maxAttempts,
    requests (fst (run (handleSubmitPrompt prompt) s)) =
      requests s ++ [PostGenerate prompt (apiKey s) temperature maxAttempts]
    /\ (absent "temperature" \/ truthy (get_prop "temperature" settings) = false ->
        temperature = JNum lit_0_6)
    /\ (absent "maxAttempts" \/ truthy (get_prop "maxAttempts" settings) = false ->
        maxAttempts = JNum lit_5)
    /\ (truthy (get_prop "temperature" settings) = true ->
        temperature = get_prop "temperature" settings)
    /\ (truthy (get_prop "maxAttempts" settings) = true ->
        maxAttempts = get_prop "maxAttempts" settings).
Proof.
  intros prompt s Hkey settings absent.
  exists (js_or (get_prop "temperature" settings) (JNum lit_0_6)).
  exists (js_or (get_prop "maxAttempts" settings) (JNum lit_5)).
  split.
  - unfold handleSubmitPrompt, read. cbn. rewrite Hkey. reflexivity.
  - unfold js_or. repeat split.
    + intros [Ha | Hf].
      * unfold absent in Ha. now rewrite (get_prop_absent _ _ Ha).
      * now rewrite Hf.
    + intros [Ha | Hf].
      * unfold absent in Ha. now rewrite (get_prop_absent _ _ Ha).
      * now rewrite Hf.
    + intro Ht. now rewrite Ht.
    + intro Ht. now rewrite Ht.
Qed.

Lemma generate_uses_default_settings_witness :
  let s := store (mount (Some sample_settings) sample_clock) in
  truthy (apiKey s) = true
  /\ requests (fst (run (handleSubmitPrompt "RSI scalper") s)) =
       [PostGenerate "RSI scalper" (JStr "nvapi-key") (JNum lit_0_6) (JNum lit_5)].
Proof.
  cbv zeta. split; [reflexivity | ].
  destruct (generate_uses_default_settings "RSI scalper"
              (store (mount (Some sample_settings) sample_clock)) eq_refl)
    as (temperature & maxAttempts & Hreq & Htemp & Hmax & _).
  rewrite Hreq, Htemp, Hmax.
  - reflexivity.
  - left. reflexivity.
  - right. reflexivity.
Defined.

(** C4.  From a store that is not loading, a submission leaves [loading]
    true exactly when it has issued a generate request; and whatever the
    request settles with (a result with code, a result without, a
    rejection), the resumed handler finishes with [loading] false, from any
    store. *)
Theorem loading_follows_generate : forall prompt s,
  loading s = false ->
  let r := run (handleSubmitPrompt prompt) s in
  (loading (fst r) = true <->
   exists key temperature maxAttempts,
     requests (fst r) =
       requests s ++ [PostGenerate prompt key temperature maxAttempts])
  /\ (forall w reply p s2,
        In w (snd r) -> resume w reply = Some p ->
        loading (fst (run p s2)) = false /\ snd (run p s2) = []).
Proof.
  intros prompt s Hidle r. split.
  - subst r. unfold handleSubmitPrompt, read. cbn.
    destruct (truthy (apiKey s)); cbn.
    + split; [intros _ | reflexivity]. eauto.
    + rewrite Hidle. split; [discriminate | ].
      intros (key & t & m & H). symmetry in H.
      now apply app_one_neq in H.
  - intros w reply p s2 Hin Hres. subst r.
    rewrite run_handleSubmitPrompt_waiters in Hin.
    destruct (truthy (apiKey s)); [ | contradiction].
    destruct Hin as [<- | []].
    destruct reply as [o | o | o]; try discriminate.
    injection Hres as <-. apply run_generate_settled_done.
Qed.

Lemma loading_follows_generate_witness :
  let s := store (mount (Some sample_settings) sample_clock) in
  loading s = false
  /\ (loading (fst (run (handleSubmitPrompt "RSI scalper") s)) = true <->
      exists key temperature maxAttempts,
        requests (fst (run (handleSubmitPrompt "RSI scalper") s)) =
          requests s ++ [PostGenerate "RSI scalper" key temperature maxAttempts]).
Proof.
  cbv zeta. split; [reflexivity | ].
  exact (proj1 (loading_follows_generate "RSI scalper"
                  (store (mount (Some sample_settings) sample_clock)) eq_refl)).
Defined.

(** C8.  When the current result carries code, a feedback submission issues
    its request and suspends.  If the request resolves, the flag
    [feedbackSubmitted] becomes true and one acknowledgement turn is
    appended; if it is rejected, the error is set to the failure message, the
    flag is left as it was and the conversation is unchanged. *)
Theorem feedback_settlement : forall works reason s code,
  result_code (lastGenerationResult s) = Some code ->
  string_truthy code = true ->
  exists k,
    run (handleSubmitFeedback works reason) s =
      (post (PostFeedback code works reason) s, [WFeedback k])
    /\ forall s2,
         (forall resp,
            let r := run (k (Resolved resp)) s2 in
            feedbackSubmitted (fst r) = true
            /\ messages (fst r) =
                 messages s2 ++
                 [Message.mk ("feedback-" ++ toString (clock s2 (clock_reads s2)))
                    assistant (feedbackContent works)
                    (clock s2 (1 + clock_reads s2)) false]
            /\ error (fst r) = error s2
            /\ requests (fst r) = requests s2
            /\ snd r = [])
         /\ (forall e,
               let r := run (k (Rejected e)) s2 in
               error (fst r) = Some (message_or e "Failed to submit feedback")
               /\ feedbackSubmitted (fst r) = feedbackSubmitted s2
               /\ messages (fst r) = messages s2
               /\ requests (fst r) = requests s2
               /\ snd r = []).
Proof.
  intros works reason s code Hcode Htruthy.
  exists (feedback_settled works). split.
  - unfold handleSubmitFeedback, read. cbn. rewrite Hcode, Htruthy. reflexivity.
  - intro s2. split.
    + intro resp. cbn. auto.
    + intro e. cbn. auto.
Qed.

(** ** The handlers in direct style are what [run] computes *)

Lemma run_handleSubmitPrompt : forall prompt s,
  run (handleSubmitPrompt prompt) s =
  if truthy (apiKey s)
  then (submit_started prompt s,
        [WGenerate (generate_settled (loadingMessage_at s))])
  else (submit_refused prompt s, []).
Proof.
  intros prompt s. unfold handleSubmitPrompt, read. cbn [run].
  destruct (truthy (apiKey s)); vm_compute; reflexivity.
Qed.

Lemma run_generate_settled : forall lm o s,
  run (generate_settled lm o) s = (generate_outcome lm o s, []).
Proof.
  intros lm [r | e] s.
  - unfold generate_outcome, outcome_kept, terminal_turn, verdict,
      outcome_activities, generate_settled, after_generate.
    fold (has_code r).
    destruct (GenerationResult.activities r), (has_code r);
      vm_compute; reflexivity.
  - vm_compute. reflexivity.
Qed.

Lemma run_handleSubmitFeedback : forall works reason s,
  run (handleSubmitFeedback works reason) s =
  match feedback_code s with
  | Some code =>
      (post (PostFeedback code works reason) s,
       [WFeedback (feedback_settled works)])
  | None => (s, [])
  end.
Proof.
  intros works reason s. unfold handleSubmitFeedback, read, feedback_code.
  cbn [run try_catch].
  destruct (result_code (lastGenerationResult s)) as [code | ];
    [destruct (string_truthy code) | ]; reflexivity.
Qed.

Lemma run_feedback_settled : forall works o s,
  run (feedback_settled works o) s = (feedback_outcome works o s, []).
Proof.
  intros works [r | e] s; vm_compute; reflexivity.
Qed.

Lemma run_activities_settled : forall o s,
  run (activities_settled o) s = (activities_outcome o s, []).
Proof.
  intros [r | e] s; reflexivity.
Qed.

Lemma run_pollActivities : forall s,
  run pollActivities s = (post GetActivities s, [WActivities activities_settled]).
Proof.
  intro s. reflexivity.
Qed.

Lemma run_ChatInput_handleSubmit : forall s,
  run ChatInput_handleSubmit s =
  if chat_accepts s
  then (set_input "" (submit_started (input s) s),
        [WGenerate (generate_settled (loadingMessage_at s))])
  else (s, []).
Proof.
  intro s. unfold ChatInput_handleSubmit, read, chat_accepts. cbn [run].
  destruct (string_truthy (trim (input s))); cbn [andb]; [ | reflexivity].
  destruct (truthy (apiKey s)) eqn:Hkey; cbn [andb negb]; [ | reflexivity].
  destruct (loading s); cbn [negb]; [reflexivity | ].
  cbn [run]. rewrite run_handleSubmitPrompt, Hkey. reflexivity.
Qed.

Lemma run_form_submit : forall works reason s,
  run (Call (handleSubmitFeedback works reason)
         (setShowDetailForm false ;; setReason "" ;; Done)) s =
  match feedback_code s with
  | Some code =>
      (form_reset (post (PostFeedback code works reason) s),
       [WFeedback (feedback_settled works)])
  | None => (form_reset s, [])
  end.
Proof.
  intros works reason s. cbn [run]. rewrite run_handleSubmitFeedback.
  destruct (feedback_code s); reflexivity.
Qed.


Ltac store_simpl :=
  cbn [messages loading lastGenerationResult feedbackSubmitted error activities
       activityPollingRef apiKey effect_loading effect_cleanup input
       feedbackForm localStorage intervals next_interval requests console
       clock clock_reads
       set_messages set_loading set_lastGenerationResult set_feedbackSubmitted
       set_error set_activities set_activityPollingRef set_apiKey
       set_effect_loading set_effect_cleanup set_input set_feedbackForm
       set_localStorage set_intervals set_next_interval set_requests
       set_console set_clock set_clock_reads
       submit_started submit_refused generate_outcome feedback_outcome
       activities_outcome post form_reset setReason setShowDetailForm
       setInput] in *.

(** *** Rendering *)

Lemma render_feedbackForm_session : forall s,
  same_session s (render_feedbackForm s).
Proof.
  intro s. unfold render_feedbackForm, same_session.
  destruct (lastGenerationResult s) eqn:Hres;
    [destruct (feedbackSubmitted s) eqn:Hfs; cbn [negb];
     [ | destruct (feedbackForm s)] | ];
    store_simpl; rewrite ?Hres, ?Hfs; repeat split.
Qed.

Lemma polling_effect_session : forall s,
  same_session s (polling_effect s).
Proof.
  intro s. unfold polling_effect, polling_cleanup, start_polling,
    clearInterval, same_session.
  destruct (Bool.eqb (loading s) (effect_loading s)); [repeat split | ].
  destruct (effect_cleanup s);
    [destruct (activityPollingRef s) | ]; store_simpl;
    destruct (loading s) eqn:Hl; store_simpl; rewrite ?Hl; repeat split.
Qed.

Lemma commit_session : forall s, same_session s (commit s).
Proof.
  intro s. unfold commit.
  destruct (render_feedbackForm_session
              (polling_effect (set_apiKey (render_apiKey (localStorage s)) s)))
    as (H1 & H2 & H3 & H4 & H5 & H6 & H7).
  destruct (polling_effect_session
              (set_apiKey (render_apiKey (localStorage s)) s))
    as (G1 & G2 & G3 & G4 & G5 & G6 & G7).
  unfold same_session.
  rewrite H1, H2, H3, H4, H5, H6, H7, G1, G2, G3, G4, G5, G6, G7.
  repeat split.
Qed.

Lemma render_feedbackForm_idempotent : forall s,
  render_feedbackForm (render_feedbackForm s) = render_feedbackForm s.
Proof.
  intros [msgs ld res fs err acts ref key el ec inp form item ivs nxt reqs con clk n].
  unfold render_feedbackForm. store_simpl.
  destruct res; [destruct fs; cbn [negb]; [ | destruct form] | ];
    reflexivity.
Qed.

Lemma render_feedbackForm_frame : forall s,
  effect_loading (render_feedbackForm s) = effect_loading s
  /\ localStorage (render_feedbackForm s) = localStorage s
  /\ apiKey (render_feedbackForm s) = apiKey s
  /\ intervals (render_feedbackForm s) = intervals s
  /\ activityPollingRef (render_feedbackForm s) = activityPollingRef s
  /\ effect_cleanup (render_feedbackForm s) = effect_cleanup s.
Proof.
  intro s. unfold render_feedbackForm.
  destruct (lastGenerationResult s);
    [destruct (feedbackSubmitted s); cbn [negb];
     [ | destruct (feedbackForm s)] | ];
    repeat split.
Qed.

Lemma polling_effect_frame : forall s,
  effect_loading (polling_effect s) = loading s
  /\ localStorage (polling_effect s) = localStorage s
  /\ apiKey (polling_effect s) = apiKey s.
Proof.
  intro s. unfold polling_effect, polling_cleanup, start_polling, clearInterval.
  destruct (Bool.eqb (loading s) (effect_loading s)) eqn:Heq.
  - apply Bool.eqb_prop in Heq. rewrite Heq. repeat split.
  - destruct (effect_cleanup s);
      [destruct (activityPollingRef s) | ]; store_simpl;
      destruct (loading s) eqn:Hl; store_simpl; repeat split.
Qed.

Lemma set_apiKey_same : forall s, set_apiKey (apiKey s) s = s.
Proof.
  intros []. reflexivity.
Qed.

Lemma commit_idempotent : forall s, commit (commit s) = commit s.
Proof.
  intro s.
  pose proof (commit_session s) as (_ & Hl & _).
  unfold commit at 1.
  assert (Hkey : render_apiKey (localStorage (commit s)) = apiKey (commit s)).
  { unfold commit.
    destruct (render_feedbackForm_frame
                (polling_effect (set_apiKey (render_apiKey (localStorage s)) s)))
      as (_ & Hls & Hk & _).
    destruct (polling_effect_frame
                (set_apiKey (render_apiKey (localStorage s)) s))
      as (_ & Hls' & Hk').
    rewrite Hls, Hk, Hls', Hk'. reflexivity. }
  rewrite Hkey, set_apiKey_same.
  rewrite polling_effect_idle.
  - unfold commit. apply render_feedbackForm_idempotent.
  - rewrite Hl. unfold commit.
    destruct (render_feedbackForm_frame
                (polling_effect (set_apiKey (render_apiKey (localStorage s)) s)))
      as (Hel & _).
    destruct (polling_effect_frame
                (set_apiKey (render_apiKey (localStorage s)) s))
      as (Hel' & _).
    rewrite Hel, Hel'. reflexivity.
Qed.

Lemma polling_effect_ok : forall s t,
  polling_ok s -> frame s t -> polling_ok (polling_effect t).
Proof.
  intros s t [Hel Hp] (Hi & Hr & Hel' & Hec).
  unfold polling_effect. rewrite Hel', Hel.
  destruct (loading s) eqn:Hold; destruct (loading t) eqn:Hnew;
    cbn [Bool.eqb]; unfold polling_ok.
  - rewrite Hnew, Hel', Hel, Hi, Hr, Hec. split; [reflexivity | exact Hp].
  - destruct Hp as (h & Hivs & Href & Hclean).
    rewrite Hec, Hclean. unfold polling_cleanup. rewrite Hr, Href.
    unfold clearInterval. store_simpl.
    rewrite Hnew, Hi, Hivs. cbn [filter]. rewrite Pos.eqb_refl. cbn [negb].
    store_simpl. rewrite Hnew. auto.
  - destruct Hp as [Hivs Hclean]. rewrite Hec, Hclean. rewrite Hnew.
    unfold start_polling. store_simpl. rewrite Hnew, Hi, Hivs.
    split; [reflexivity | ]. exists (next_interval t). auto.
  - rewrite Hnew, Hel', Hel, Hi, Hec. split; [reflexivity | exact Hp].
Qed.

Lemma commit_polling : forall s s',
  polling_ok s -> frame s s' -> polling_ok (commit s').
Proof.
  intros s s' Hp Hf.
  assert (Hpoll : polling_ok
            (polling_effect (set_apiKey (render_apiKey (localStorage s')) s'))).
  { apply polling_effect_ok with (s := s); [exact Hp | exact Hf]. }
  revert Hpoll. unfold commit.
  generalize (polling_effect (set_apiKey (render_apiKey (localStorage s')) s')).
  intros t Ht. unfold polling_ok in *.
  destruct (render_feedbackForm_frame t) as (H1 & _ & _ & H2 & H3 & H4).
  destruct (render_feedbackForm_session t) as (_ & H5 & _).
  rewrite H1, H2, H3, H4, H5. exact Ht.
Qed.



(** *** Lists *)

Lemma remove_nth_split : forall (A : Type) (l : list A) i x,
  nth_error l i = Some x ->
  exists l1 l2, l = l1 ++ x :: l2 /\ remove_nth i l = l1 ++ l2.
Proof.
  intros A l. induction l as [| a l IH]; intros [| i] x H; simpl in H;
    try discriminate.
  - injection H as ->. exists [], l. auto.
  - destruct (IH i x H) as (l1 & l2 & -> & Hr).
    exists (a :: l1), l2. simpl. now rewrite Hr.
Qed.

Lemma remove_nth_map : forall (A B : Type) (f : A -> B) (l : list A) i,
  remove_nth i (map f l) = map f (remove_nth i l).
Proof.
  intros A B f l. induction l as [| a l IH]; intros [| i]; simpl; auto.
  now rewrite IH.
Qed.

Lemma filter_comm : forall (A : Type) (p q : A -> bool) (l : list A),
  filter p (filter q l) = filter q (filter p l).
Proof.
  intros A p q l. induction l as [| a l IH]; simpl; [reflexivity | ].
  destruct (q a) eqn:Hq, (p a) eqn:Hp; simpl; rewrite ?Hq, ?Hp, IH;
    reflexivity.
Qed.

(** *** Message ids *)

Lemma loading_id_loading : forall suffix,
  is_loading_id ("loading-" ++ suffix) = true.
Proof.
  intro suffix. unfold is_loading_id. cbn. now destruct suffix.
Qed.

Lemma toString_not_loading : forall n, is_loading_id (toString n) = false.
Proof.
  intro n. unfold toString, is_loading_id.
  destruct (N.to_uint n); reflexivity.
Qed.

Lemma terminal_turn_settled : forall o s,
  pending_turn (terminal_turn o s) = false
  /\ Message.loading (terminal_turn o s) = false
  /\ Message.role (terminal_turn o s) = assistant.
Proof.
  intros o s. unfold terminal_turn. destruct (verdict o); repeat split.
Qed.

Lemma verdict_generated : forall o r,
  verdict o = Generated r -> o = Resolved r /\ has_code r = true.
Proof.
  intros [r' | e] r; unfold verdict; [ | discriminate].
  destruct (has_code r') eqn:Hc; [ | discriminate].
  intro H. injection H as <-. auto.
Qed.

Lemma js_or_truthy : forall a d, truthy d = true -> truthy (js_or a d) = true.
Proof.
  intros a d Hd. unfold js_or. destruct (truthy a) eqn:Ha; assumption.
Qed.

(** *** The handlers keep [Stable] *)

Lemma pendings_app : forall t1 t2, pendings (t1 ++ t2) = pendings t1 ++ pendings t2.
Proof.
  intros. unfold pendings. apply flat_map_app.
Qed.

Lemma Stable_same : forall s s' tags,
  same_session s s' -> Stable s tags -> Stable s' tags.
Proof.
  intros s s' tags (Hm & Hl & Hr & _ & Hq & _) [H1 H2 H3 H4 H5].
  constructor; rewrite ?Hm, ?Hl, ?Hr, ?Hq; assumption.
Qed.

Lemma Stable_submit : forall s tags,
  Stable s tags -> chat_accepts s = true ->
  Stable (set_input "" (submit_started (input s) s))
    (tags ++ [TGenerate (loadingMessage_at s)]).
Proof.
  intros s tags [Hpend Hone Hflags Hres Hreq] Hacc.
  unfold chat_accepts in Hacc.
  apply andb_true_iff in Hacc. destruct Hacc as [Hacc Hidle].
  apply andb_true_iff in Hacc. destruct Hacc as [Hinput Hkey].
  rewrite negb_involutive in Hkey. apply negb_true_iff in Hidle.
  rewrite Hidle in Hone.
  destruct (pendings tags) as [| ? ?] eqn:Hnone; [ | discriminate].
  constructor; store_simpl.
  - rewrite !filter_app, Hpend, pendings_app, Hnone. cbn [filter app].
    unfold pending_turn at 1. cbn [userMessage_at Message.id].
    rewrite toString_not_loading.
    unfold pending_turn, loadingMessage_at. cbn [Message.id].
    rewrite loading_id_loading. reflexivity.
  - rewrite pendings_app, Hnone. reflexivity.
  - repeat (apply Forall_app; split); try assumption.
    + constructor; [ | constructor]. unfold pending_turn.
      cbn [userMessage_at Message.id Message.loading].
      now rewrite toString_not_loading.
    + constructor; [ | constructor]. unfold pending_turn, loadingMessage_at.
      cbn [Message.id Message.loading]. now rewrite loading_id_loading.
  - discriminate.
  - rewrite forallb_app, Hreq. cbn [forallb generate_request request_ok andb].
    rewrite Hinput, Hkey, !js_or_truthy by reflexivity. reflexivity.
Qed.

Lemma Stable_generate : forall s tags i lm o,
  Stable s tags -> nth_error tags i = Some (TGenerate lm) ->
  loading s = true
  /\ filter pending_turn (messages s) = [lm]
  /\ lastGenerationResult s = None
  /\ Stable (generate_outcome lm o s) (remove_nth i tags).
Proof.
  intros s tags i lm o [Hpend Hone Hflags Hres Hreq] Hnth.
  destruct (remove_nth_split _ _ Hnth) as (t1 & t2 & -> & ->).
  rewrite !pendings_app in *. cbn [pendings flat_map pending_of app] in *.
  fold (pendings t2) in *.
  assert (Hempty : pendings t1 = [] /\ pendings t2 = [] /\ loading s = true).
  { rewrite !length_app in Hone.
    destruct (loading s); simpl in Hone; [ | lia].
    destruct (pendings t1); simpl in Hone; [ | lia].
    destruct (pendings t2); simpl in Hone; [auto | lia]. }
  destruct Hempty as (Ht1 & Ht2 & Hbusy).
  rewrite Ht1, Ht2 in *. cbn [app] in *.
  assert (Hnone : lastGenerationResult s = None).
  { destruct (lastGenerationResult s) as [r | ] eqn:Hr; [ | reflexivity].
    destruct (Hres r eq_refl) as [Hidle _]. congruence. }
  assert (Hkept : forall l, filter pending_turn l = [lm] ->
            filter pending_turn (without (Message.id lm) l) = []).
  { intros l Hl. unfold without. rewrite filter_comm, Hl. cbn [filter].
    now rewrite String.eqb_refl. }
  assert (Hkept2 : filter pending_turn (outcome_kept lm o s) = []).
  { unfold outcome_kept. destruct o as [r | e]; [destruct (has_code r) | ].
    - now apply Hkept.
    - unfold without at 1. rewrite filter_comm. fold (without (Message.id lm) (messages s)).
      rewrite (Hkept _ Hpend). reflexivity.
    - now apply Hkept. }
  assert (Hsub : forall m, In m (outcome_kept lm o s) -> In m (messages s)).
  { intros m. unfold outcome_kept, without.
    destruct o as [r | e]; [destruct (has_code r) | ]; intro Hin;
      repeat (apply filter_In in Hin; destruct Hin as [Hin _]); exact Hin. }
  destruct (terminal_turn_settled o s) as (Hterm & Hflag & _).
  split; [assumption | split; [assumption | split; [assumption | ]]].
  constructor; store_simpl; rewrite ?pendings_app, ?Ht1, ?Ht2.
  - rewrite filter_app, Hkept2. cbn [filter app]. now rewrite Hterm.
  - reflexivity.
  - apply Forall_app. split.
    + rewrite Forall_forall in *. intros m Hm. apply Hflags, Hsub, Hm.
    + constructor; [ | constructor]. now rewrite Hterm, Hflag.
  - intros r Hr. split; [reflexivity | ].
    destruct (verdict o) as [r' | msg] eqn:Hv.
    + injection Hr as <-. now apply verdict_generated in Hv.
    + congruence.
  - assumption.
Qed.

Lemma pendings_remove_other : forall tags i t,
  nth_error tags i = Some t -> pending_of t = [] ->
  pendings (remove_nth i tags) = pendings tags.
Proof.
  intros tags i t Hnth Ht.
  destruct (remove_nth_split _ _ Hnth) as (t1 & t2 & -> & ->).
  rewrite !pendings_app. cbn [pendings flat_map]. now rewrite Ht.
Qed.

Lemma not_pending_feedback : forall works s,
  pending_turn
    (Message.mk ("feedback-" ++ toString (clock s (clock_reads s))) assistant
       (feedbackContent works) (clock s (1 + clock_reads s)) false) = false.
Proof.
  reflexivity.
Qed.

Lemma Stable_feedback : forall s tags i works o,
  Stable s tags -> nth_error tags i = Some (TFeedback works) ->
  Stable (feedback_outcome works o s) (remove_nth i tags).
Proof.
  intros s tags i works o [Hpend Hone Hflags Hres Hreq] Hnth.
  rewrite <- (@pendings_remove_other _ _ _ Hnth eq_refl) in Hpend, Hone.
  destruct o as [r | e]; constructor; store_simpl; try assumption.
  - rewrite filter_app, Hpend. cbn [filter]. rewrite not_pending_feedback.
    apply app_nil_r.
  - apply Forall_app. split; [assumption | ].
    constructor; [ | constructor]. now rewrite not_pending_feedback.
Qed.

Lemma Stable_activities : forall s tags i o,
  Stable s tags -> nth_error tags i = Some TActivities ->
  Stable (activities_outcome o s) (remove_nth i tags).
Proof.
  intros s tags i o [Hpend Hone Hflags Hres Hreq] Hnth.
  rewrite <- (@pendings_remove_other _ _ _ Hnth eq_refl) in Hpend, Hone.
  destruct o as [r | e]; constructor; store_simpl; assumption.
Qed.

Lemma Stable_post : forall s tags r t,
  Stable s tags -> request_ok r = true -> pending_of t = [] ->
  Stable (post r s) (tags ++ [t]).
Proof.
  intros s tags r t [Hpend Hone Hflags Hres Hreq] Hr Ht.
  assert (Hp : pendings (tags ++ [t]) = pendings tags).
  { rewrite pendings_app. cbn [pendings flat_map]. rewrite Ht.
    now rewrite !app_nil_r. }
  constructor; store_simpl; rewrite ?Hp; try assumption.
  rewrite forallb_app, Hreq. cbn [forallb]. now rewrite Hr.
Qed.


(** *** What one event does *)

Lemma run_handleDetailedSubmit : forall s,
  run handleDetailedSubmit s =
  run (Call (handleSubmitFeedback false (Some (form_reason s)))
         (setShowDetailForm false ;; setReason "" ;; Done)) s.
Proof.
  reflexivity.
Qed.

Lemma step_effect : forall e s tags sys',
  step e {| store := s; waiters := map waiter_of tags |} = Some sys' ->
  exists s' tags', Effect s tags e s' tags' /\ sys' = after_effect s' tags'.
Proof.
  intros e s tags sys' Hstep. unfold step in Hstep.
  destruct (handler e _) as [p | ] eqn:Hh; [ | discriminate].
  unfold after_effect.
  destruct e; cbn [handler store waiters remaining] in *.
  - destruct (negb (truthy (apiKey s)) || loading s) eqn:Hg; [discriminate | ].
    injection Hh as <-. cbn [run] in Hstep. injection Hstep as <-.
    rewrite app_nil_r. eauto using Effect.
  - injection Hh as <-. rewrite run_ChatInput_handleSubmit in Hstep.
    destruct (chat_accepts s) eqn:Hacc; injection Hstep as <-.
    + change [WGenerate (generate_settled (loadingMessage_at s))]
        with (map waiter_of [TGenerate (loadingMessage_at s)]).
      rewrite <- map_app. eauto using Effect.
    + rewrite app_nil_r. eauto using Effect.
  - destruct (feedbackForm s) as [f | ] eqn:Hform; [ | discriminate].
    destruct (showDetailForm f || loading s) eqn:Hg; [discriminate | ].
    injection Hh as <-. unfold handlePositiveFeedback in Hstep.
    rewrite run_form_submit in Hstep.
    destruct (feedback_code s) as [code | ] eqn:Hcode; injection Hstep as <-.
    + change [WFeedback (feedback_settled true)]
        with (map waiter_of [TFeedback true]).
      rewrite <- map_app. eauto using Effect.
    + rewrite app_nil_r. eauto using Effect.
  - destruct (feedbackForm s) as [f | ] eqn:Hform; [ | discriminate].
    destruct (showDetailForm f || loading s) eqn:Hg; [discriminate | ].
    injection Hh as <-. cbn [run handleNegativeFeedback] in Hstep.
    injection Hstep as <-. rewrite app_nil_r. eauto using Effect.
  - destruct (feedbackForm s) as [f | ] eqn:Hform; [ | discriminate].
    destruct (showDetailForm f) eqn:Hg; [ | discriminate].
    injection Hh as <-. cbn [run] in Hstep. injection Hstep as <-.
    rewrite app_nil_r. eauto using Effect.
  - destruct (feedbackForm s) as [f | ] eqn:Hform; [ | discriminate].
    destruct (negb (showDetailForm f) || loading s) eqn:Hg;
      [discriminate | ]. cbn [orb] in Hh.
    destruct (string_truthy (trim (reason f))) eqn:Hreason;
      [ | discriminate].
    injection Hh as <-.
    rewrite run_handleDetailedSubmit, run_form_submit in Hstep.
    assert (Hr : form_reason s = reason f) by (unfold form_reason; now rewrite Hform).
    rewrite Hr in Hstep.
    destruct (feedback_code s) as [code | ] eqn:Hcode; injection Hstep as <-.
    + change [WFeedback (feedback_settled false)]
        with (map waiter_of [TFeedback false]).
      rewrite <- map_app. eauto using Effect.
    + rewrite app_nil_r. eauto using Effect.
  - destruct (feedbackForm s) as [f | ] eqn:Hform; [ | discriminate].
    destruct (negb (showDetailForm f) || loading s) eqn:Hg; [discriminate | ].
    injection Hh as <-. cbn [run handleBack] in Hstep.
    injection Hstep as <-. rewrite app_nil_r. eauto using Effect.
  - destruct (existsb (Pos.eqb h) (intervals s)) eqn:Hg; [ | discriminate].
    injection Hh as <-. cbn [run] in Hstep. rewrite run_pollActivities in Hstep.
    injection Hstep as <-. cbn [app].
    change [WActivities activities_settled] with (map waiter_of [TActivities]).
    rewrite <- map_app. eauto using Effect.
  - rewrite nth_error_map in Hh.
    destruct (nth_error tags i) as [t | ] eqn:Hnth; [ | discriminate].
    cbn [option_map] in Hh. rewrite remove_nth_map in Hstep.
    destruct t as [lm | | works], r as [o | o | o]; try discriminate;
      cbn [resume waiter_of] in Hh; injection Hh as <-.
    + rewrite run_generate_settled in Hstep. injection Hstep as <-.
      rewrite app_nil_r. eauto using Effect.
    + rewrite run_activities_settled in Hstep. injection Hstep as <-.
      rewrite app_nil_r. eauto using Effect.
    + rewrite run_feedback_settled in Hstep. injection Hstep as <-.
      rewrite app_nil_r. eauto using Effect.
Qed.

Lemma effect_frame : forall s tags e s' tags',
  Effect s tags e s' tags' -> frame s s'.
Proof.
  intros s tags e s' tags' H. destruct H; try (repeat split; fail);
    destruct o; repeat split.
Qed.

Lemma feedback_code_truthy : forall s code,
  feedback_code s = Some code -> string_truthy code = true.
Proof.
  intros s code. unfold feedback_code.
  destruct (result_code (lastGenerationResult s)) as [c | ]; [ | discriminate].
  destruct (string_truthy c) eqn:Hc; [ | discriminate].
  intro H. now injection H as <-.
Qed.

Lemma effect_stable : forall s tags e s' tags',
  Effect s tags e s' tags' -> Stable s tags -> Stable s' tags'.
Proof.
  intros s tags e s' tags' H Hs. destruct H.
  - apply Stable_same with (s := s); [repeat split | assumption].
  - now apply Stable_submit.
  - assumption.
  - apply Stable_same with (s := post (PostFeedback code true None) s);
      [repeat split | ].
    apply Stable_post; auto. cbn [request_ok].
    now rewrite (feedback_code_truthy _ H1).
  - apply Stable_same with (s := s); [repeat split | assumption].
  - apply Stable_same with (s := s); [repeat split | assumption].
  - apply Stable_same with (s := s); [repeat split | assumption].
  - apply Stable_same
      with (s := post (PostFeedback code false (Some (reason f))) s);
      [repeat split | ].
    apply Stable_post; auto. cbn [request_ok negb andb].
    now rewrite (feedback_code_truthy _ H2), H1.
  - apply Stable_same with (s := s); [repeat split | assumption].
  - apply Stable_same with (s := s); [repeat split | assumption].
  - now apply Stable_post.
  - now apply (@Stable_generate s tags i lm o Hs H).
  - now apply Stable_activities.
  - now apply Stable_feedback.
Qed.

(** *** Every reachable state satisfies [Inv] *)

Lemma inv_intro : forall s s' tags,
  polling_ok s -> frame s s' -> Stable s' tags -> Inv (after_effect s' tags).
Proof.
  intros s s' tags Hp Hf Hs. constructor; cbn [after_effect store waiters].
  - apply commit_idempotent.
  - exact (commit_polling Hp Hf).
  - exists tags. split; [reflexivity | ].
    exact (Stable_same (commit_session s') Hs).
Qed.

Lemma mount_inv : forall item clk, Inv (mount item clk).
Proof.
  intros item clk. constructor; cbn [mount store waiters].
  - unfold commit, polling_effect, render_feedbackForm. reflexivity.
  - split; [reflexivity | ]. cbn. auto.
  - exists []. split; [reflexivity | ].
    constructor; cbn; auto; discriminate.
Qed.

Lemma step_inv : forall e sys sys',
  Inv sys -> step e sys = Some sys' -> Inv sys'.
Proof.
  intros e [s ws] sys' [Hc Hp (tags & Hw & Hs)] Hstep.
  cbn [store waiters] in *. subst ws.
  destruct (step_effect _ _ _ Hstep) as (s' & tags' & Heff & ->).
  apply inv_intro with (s := s).
  - assumption.
  - exact (effect_frame Heff).
  - exact (effect_stable Heff Hs).
Qed.

Lemma reachable_inv : forall sys, reachable sys -> Inv sys.
Proof.
  intros sys H. induction H as [item clk | sys e sys' _ IH Hstep].
  - apply mount_inv.
  - exact (step_inv e IH Hstep).
Qed.

(** A reachable state, seen through its tags. *)
Lemma reachable_tags : forall sys,
  reachable sys ->
  exists tags,
    sys = {| store := store sys; waiters := map waiter_of tags |}
    /\ Stable (store sys) tags
    /\ polling_ok (store sys)
    /\ commit (store sys) = store sys.
Proof.
  intros sys H. destruct (reachable_inv H) as [Hc Hp (tags & Hw & Hs)].
  exists tags. destruct sys as [s ws]. cbn [store waiters] in *.
  subst ws. auto.
Qed.



(** ** Every reachable state *)

Lemma generate_waiters_pendings : forall tags,
  List.length (filter is_generate (map waiter_of tags)) =
  List.length (pendings tags).
Proof.
  induction tags as [| [lm | | works] tags IH]; cbn; auto.
Qed.

Lemma steps_reachable : forall es sys sys',
  reachable sys -> steps es sys = Some sys' -> reachable sys'.
Proof.
  induction es as [| e es IH]; intros sys sys' Hr Hs; cbn in Hs.
  - now injection Hs as <-.
  - destruct (step e sys) as [sys1 | ] eqn:Hstep; [ | discriminate].
    apply (IH sys1); [ | assumption]. now apply reach_step with sys e.
Qed.

Lemma reachable_after : forall es sys, reachable sys -> reachable (after es sys).
Proof.
  intros es sys Hr. unfold after.
  destruct (steps es sys) as [sys' | ] eqn:Hs; [ | assumption].
  exact (steps_reachable es Hr Hs).
Qed.

(** X1.  On every reachable page, [loading] is true exactly when one
    generate call is outstanding, and there are never two. *)
Theorem loading_iff_one_generate_outstanding : forall sys,
  reachable sys ->
  List.length (filter is_generate (waiters sys)) =
  if loading (store sys) then 1 else 0.
Proof.
  intros sys Hr.
  destruct (reachable_tags Hr) as (tags & -> & Hs & _). cbn [store waiters].
  rewrite generate_waiters_pendings. exact (st_one Hs).
Qed.

Lemma loading_iff_one_generate_outstanding_witness :
  reachable sample_busy
  /\ loading (store sample_busy) = true
  /\ List.length (filter is_generate (waiters sample_busy)) = 1.
Proof.
  assert (Hr : reachable sample_busy) by apply reachable_after, reach_mount.
  assert (Hbusy : loading (store sample_busy) = true)
    by (vm_compute; reflexivity).
  split; [exact Hr | split; [exact Hbusy | ]].
  rewrite (loading_iff_one_generate_outstanding Hr), Hbusy. reflexivity.
Defined.



(** X2.  On every reachable page the polling interval is alive exactly
    while [loading] is true, there is never more than one, and a tick, which
    can only fire while loading, issues one [GET /activities]. *)
Theorem polling_follows_loading : forall sys,
  reachable sys ->
  (if loading (store sys)
   then exists h, intervals (store sys) = [h]
                  /\ activityPollingRef (store sys) = Some h
   else intervals (store sys) = [])
  /\ forall h sys',
       step (Tick h) sys = Some sys' ->
       loading (store sys) = true
       /\ requests (store sys') = requests (store sys) ++ [GetActivities].
Proof.
  intros sys Hr.
  destruct (reachable_tags Hr) as (tags & Hsys & Hs & [Hel Hp] & Hc).
  split.
  - destruct (loading (store sys)).
    + destruct Hp as (h & Hi & Href & _). eauto.
    + tauto.
  - intros h sys' Hstep. rewrite Hsys in Hstep.
    destruct (step_effect _ _ _ Hstep) as (s' & tags' & Heff & ->).
    inversion Heff as [ | | | | | | | | | | h' Hlive | | | ]; subst.
    destruct (loading (store sys)).
    + split; [reflexivity | ].
      destruct (commit_session (post GetActivities (store sys)))
        as (_ & _ & _ & _ & Hq & _).
      cbn [after_effect store]. rewrite Hq. reflexivity.
    + destruct Hp as [Hnone _]. rewrite Hnone in Hlive. discriminate.
Qed.

Lemma polling_follows_loading_witness :
  reachable sample_busy
  /\ intervals (store sample_busy) = [1%positive]
  /\ intervals (store sample_generated) = [].
Proof.
  assert (Hr : reachable sample_busy) by apply reachable_after, reach_mount.
  assert (Hr' : reachable sample_generated) by apply reachable_after, Hr.
  split; [exact Hr | split].
  - vm_compute. reflexivity.
  - generalize (proj1 (polling_follows_loading Hr')).
    vm_compute. exact (fun H => H).
Defined.

Lemma filter_flags : forall msgs,
  Forall (fun m => Message.loading m = pending_turn m) msgs ->
  filter Message.loading msgs = filter pending_turn msgs.
Proof.
  intros msgs H. apply filter_ext_in. intros m Hm.
  rewrite Forall_forall in H. now apply H.
Qed.

(** X3.  On every reachable page the conversation holds exactly one
    pending turn (a turn with [loading: true]) while [loading] is true, and
    none otherwise. *)
Theorem one_pending_turn_while_loading : forall sys,
  reachable sys ->
  List.length (filter Message.loading (messages (store sys))) =
  if loading (store sys) then 1 else 0.
Proof.
  intros sys Hr.
  destruct (reachable_tags Hr) as (tags & _ & Hs & _).
  rewrite (filter_flags (st_flags Hs)), (st_pending Hs). exact (st_one Hs).
Qed.

Lemma one_pending_turn_while_loading_witness :
  reachable sample_busy
  /\ List.length (filter Message.loading (messages (store sample_busy))) = 1.
Proof.
  assert (Hr : reachable sample_busy) by apply reachable_after, reach_mount.
  split; [exact Hr | ].
  rewrite (one_pending_turn_while_loading Hr).
  vm_compute. reflexivity.
Defined.





(** X5.  Every generate request a reachable page has issued carries a
    prompt that is not blank, a truthy API key, and a truthy temperature and
    maxAttempts: the send box never lets the key-less branch of
    [handleSubmitPrompt] run, and a stored 0 is never sent. *)
Theorem generate_requests_well_formed : forall sys prompt key temperature maxAttempts,
  reachable sys ->
  In (PostGenerate prompt key temperature maxAttempts) (requests (store sys)) ->
  trim prompt <> ""
  /\ truthy key = true
  /\ truthy temperature = true
  /\ truthy maxAttempts = true.
Proof.
  intros sys prompt key temperature maxAttempts Hr Hin.
  destruct (reachable_tags Hr) as (tags & _ & Hs & _).
  pose proof (st_requests Hs) as Hall. rewrite forallb_forall in Hall.
  specialize (Hall _ Hin). cbn [request_ok] in Hall.
  repeat (apply andb_true_iff in Hall; destruct Hall as [Hall ?]).
  repeat split; try assumption.
  intro Hblank. rewrite Hblank in Hall. discriminate.
Qed.

Lemma generate_requests_well_formed_witness :
  reachable sample_busy
  /\ In (PostGenerate "RSI scalper" (JStr "nvapi-key") (JNum lit_0_6) (JNum lit_5))
       (requests (store sample_busy))
  /\ trim "RSI scalper" <> "".
Proof.
  assert (Hr : reachable sample_busy) by apply reachable_after, reach_mount.
  assert (Hin : In (PostGenerate "RSI scalper" (JStr "nvapi-key") (JNum lit_0_6)
                      (JNum lit_5)) (requests (store sample_busy)))
    by (vm_compute; left; reflexivity).
  split; [exact Hr | split; [exact Hin | ]].
  exact (proj1 (generate_requests_well_formed _ _ _ _ Hr Hin)).
Defined.

(** X6.  Every feedback request a reachable page has issued carries
    non-empty code; a positive one carries no reason, and a negative one
    carries a reason that is not blank. *)
Theorem feedback_requests_well_formed : forall sys code works reason,
  reachable sys ->
  In (PostFeedback code works reason) (requests (store sys)) ->
  code <> ""
  /\ (works = true -> reason = None)
  /\ (works = false -> exists why, reason = Some why /\ trim why <> "").
Proof.
  intros sys code works reason Hr Hin.
  destruct (reachable_tags Hr) as (tags & _ & Hs & _).
  pose proof (st_requests Hs) as Hall. rewrite forallb_forall in Hall.
  specialize (Hall _ Hin). cbn [request_ok] in Hall.
  apply andb_true_iff in Hall. destruct Hall as [Hcode Hreason].
  split; [intro Hc; rewrite Hc in Hcode; discriminate | ].
  destruct reason as [why | ].
  - apply andb_true_iff in Hreason. destruct Hreason as [Hw Hwhy].
    apply negb_true_iff in Hw. split.
    + intro Ht. congruence.
    + intros _. exists why. split; [reflexivity | ].
      intro Hb. rewrite Hb in Hwhy. discriminate.
  - split; [reflexivity | ]. intro Hf. congruence.
Qed.

Lemma feedback_requests_well_formed_witness :
  reachable sample_reported
  /\ In (PostFeedback "strategy(...)" false (Some "plot() is missing"))
       (requests (store sample_reported))
  /\ "strategy(...)" <> "".
Proof.
  assert (Hr : reachable sample_reported)
    by apply reachable_after, reachable_after, reachable_after, reach_mount.
  assert (Hin : In (PostFeedback "strategy(...)" false (Some "plot() is missing"))
                  (requests (store sample_reported)))
    by (vm_compute; tauto).
  split; [exact Hr | split; [exact Hin | ]].
  exact (proj1 (feedback_requests_well_formed _ _ _ Hr Hin)).
Defined.


Lemma trim_end_nonspace : forall c rest,
  is_space c = false -> trim_end (String c rest) <> "".
Proof.
  intros c rest Hc. cbn [trim_end]. destruct (trim_end rest).
  - rewrite Hc. discriminate.
  - discriminate.
Qed.

Lemma trim_blank : forall s, trim s = "" <-> blank s = true.
Proof.
  intro s. unfold trim, blank.
  induction s as [| c s IH]; cbn [trim_start list_ascii_of_string forallb].
  - split; reflexivity.
  - destruct (is_space c) eqn:Hc; cbn [andb].
    + exact IH.
    + split; [ | discriminate]. intro H.
      now apply trim_end_nonspace in H.
Qed.

(** X7.  A submission from the send box while the input is blank, or the
    key is falsy, or a generation is loading, changes nothing at all: no
    turn, no request, no state. *)
Theorem chat_rejects_without_effect : forall sys,
  reachable sys ->
  blank (input (store sys)) = true
  \/ truthy (apiKey (store sys)) = false
  \/ loading (store sys) = true ->
  step SubmitChat sys = Some sys.
Proof.
  intros sys Hr Hrej.
  destruct (reachable_tags Hr) as (tags & Hsys & _ & _ & Hc).
  assert (Hacc : chat_accepts (store sys) = false).
  { unfold chat_accepts. destruct Hrej as [Hb | [Hk | Hl]].
    - apply trim_blank in Hb. now rewrite Hb.
    - rewrite Hk. cbn [negb]. now rewrite andb_false_r.
    - rewrite Hl. cbn [negb]. apply andb_false_r. }
  unfold step. cbn [handler]. rewrite run_ChatInput_handleSubmit, Hacc.
  cbn [remaining]. rewrite Hc, app_nil_r. now destruct sys.
Qed.

Lemma chat_rejects_without_effect_witness :
  reachable sample_busy
  /\ loading (store sample_busy) = true
  /\ step SubmitChat sample_busy = Some sample_busy.
Proof.
  assert (Hr : reachable sample_busy) by apply reachable_after, reach_mount.
  assert (Hbusy : loading (store sample_busy) = true)
    by (vm_compute; reflexivity).
  split; [exact Hr | split; [exact Hbusy | ]].
  apply (chat_rejects_without_effect Hr). right. right. exact Hbusy.
Defined.







(** *** Settlements *)

Lemma filter_nil_forall : forall (A : Type) (p : A -> bool) (l : list A),
  filter p l = [] -> forall x, In x l -> p x = false.
Proof.
  intros A p l. induction l as [| a l IH]; intros H x Hin; [contradiction | ].
  cbn [filter] in H. destruct (p a) eqn:Hp; [discriminate | ].
  destruct Hin as [<- | Hin]; auto.
Qed.

Lemma without_others : forall lm l,
  pending_turn lm = true ->
  (forall m, In m l -> pending_turn m = false) ->
  without (Message.id lm) l = l.
Proof.
  intros lm l Hlm. induction l as [| a l IH]; intro H; [reflexivity | ].
  unfold without in *. cbn [filter].
  destruct (String.eqb (Message.id a) (Message.id lm)) eqn:Heq.
  - apply String.eqb_eq in Heq.
    assert (Ha : pending_turn a = false) by (apply H; now left).
    unfold pending_turn in *. congruence.
  - cbn [negb]. f_equal. apply IH. intros m Hm. apply H. now right.
Qed.

(** The one pending turn among the others. *)
Lemma pending_split : forall msgs lm,
  filter pending_turn msgs = [lm] ->
  exists pre post,
    msgs = pre ++ lm :: post
    /\ pending_turn lm = true
    /\ (forall m, In m (pre ++ post) -> pending_turn m = false)
    /\ without (Message.id lm) msgs = pre ++ post.
Proof.
  induction msgs as [| a msgs IH]; intros lm H; [discriminate | ].
  cbn [filter] in H. destruct (pending_turn a) eqn:Ha.
  - injection H as -> Hrest. exists [], msgs. cbn [app].
    pose proof (filter_nil_forall _ _ Hrest) as Hnone.
    repeat split; auto.
    unfold without. cbn [filter]. rewrite String.eqb_refl. cbn [negb].
    now apply without_others.
  - destruct (IH lm H) as (pre & post & -> & Hlm & Hothers & Hw).
    exists (a :: pre), post. cbn [app]. repeat split; auto.
    + intros m [<- | Hm]; auto.
    + unfold without in *. cbn [filter].
      destruct (String.eqb (Message.id a) (Message.id lm)) eqn:Heq.
      * apply String.eqb_eq in Heq. unfold pending_turn in *. congruence.
      * cbn [negb]. now rewrite Hw.
Qed.

Lemma without_idempotent : forall id l, without id (without id l) = without id l.
Proof.
  intros id l. unfold without. induction l as [| a l IH]; [reflexivity | ].
  cbn [filter]. destruct (negb (String.eqb (Message.id a) id)) eqn:Ha.
  - cbn [filter]. now rewrite Ha, IH.
  - exact IH.
Qed.

Lemma outcome_kept_without : forall lm o s,
  outcome_kept lm o s = without (Message.id lm) (messages s).
Proof.
  intros lm [r | e] s; unfold outcome_kept; [ | reflexivity].
  destruct (has_code r); [reflexivity | apply without_idempotent].
Qed.

Lemma generate_outcome_fields : forall lm o s,
  let s' := generate_outcome lm o s in
  messages s' = without (Message.id lm) (messages s) ++ [terminal_turn o s]
  /\ loading s' = false
  /\ activities s' = outcome_activities o s
  /\ requests s' = requests s
  /\ feedbackSubmitted s' = feedbackSubmitted s
  /\ match verdict o with
     | Generated r =>
         lastGenerationResult s' = Some r /\ error s' = error s
     | Failed msg =>
         lastGenerationResult s' = lastGenerationResult s
         /\ error s' = Some msg
     end.
Proof.
  intros lm o s. cbv zeta. store_simpl. rewrite outcome_kept_without.
  destruct (verdict o); repeat split.
Qed.

Lemma nth_error_waiter : forall tags i w,
  nth_error (map waiter_of tags) i = Some w ->
  exists t, nth_error tags i = Some t /\ w = waiter_of t.
Proof.
  intros tags i w H. rewrite nth_error_map in H.
  destruct (nth_error tags i) as [t | ]; [ | discriminate].
  injection H as <-. eauto.
Qed.

Lemma step_settle : forall s tags i t r p,
  nth_error tags i = Some t ->
  resume (waiter_of t) r = Some p ->
  step (Settle i r) {| store := s; waiters := map waiter_of tags |} =
  Some {| store := commit (fst (run p s));
          waiters := map waiter_of (remove_nth i tags) ++ snd (run p s) |}.
Proof.
  intros s tags i t r p Hnth Hres. unfold step. cbn [handler store waiters].
  rewrite nth_error_map, Hnth. cbn [option_map]. rewrite Hres.
  cbn [remaining]. rewrite remove_nth_map.
  destruct (run p s). reflexivity.
Qed.

(** X9.  When an outstanding generate call settles on a reachable page,
    however it settles, the one pending turn is removed and one terminal
    assistant turn is appended at the end, every other turn staying in
    place; [loading] becomes false, the polling interval is cleared and no
    tick can fire; a result with code is stored and leaves the error as it
    was, anything else shows its failure message in an error turn, sets the
    error to it and leaves the result unset. *)
Theorem generate_settlement : forall sys i k o,
  reachable sys ->
  nth_error (waiters sys) i = Some (WGenerate k) ->
  exists sys' pre lm post,
    step (Settle i (RGenerate o)) sys = Some sys'
    /\ messages (store sys) = pre ++ lm :: post
    /\ Message.loading lm = true
    /\ (forall m, In m (pre ++ post) -> Message.loading m = false)
    /\ messages (store sys') = pre ++ post ++ [terminal_turn o (store sys)]
    /\ Message.role (terminal_turn o (store sys)) = assistant
    /\ Message.loading (terminal_turn o (store sys)) = false
    /\ loading (store sys') = false
    /\ intervals (store sys') = []
    /\ (forall h, step (Tick h) sys' = None)
    /\ activities (store sys') = outcome_activities o (store sys)
    /\ match verdict o with
       | Generated r =>
           lastGenerationResult (store sys') = Some r
           /\ error (store sys') = error (store sys)
           /\ Message.content (terminal_turn o (store sys)) =
                successContent (GenerationResult.code r)
       | Failed msg =>
           lastGenerationResult (store sys') = None
           /\ error (store sys') = Some msg
           /\ Message.content (terminal_turn o (store sys)) = errorContent msg
       end.
Proof.
  intros sys i k o Hr Hnth.
  destruct (reachable_tags Hr) as (tags & Hsys & Hs & _).
  rewrite Hsys in Hnth. cbn [waiters] in Hnth.
  destruct (nth_error_waiter _ _ Hnth) as (t & Ht & Hw).
  destruct t as [lm | | works]; try discriminate. clear Hw.
  destruct (@Stable_generate _ _ _ _ o Hs Ht) as (Hbusy & Hpend & Hnone & _).
  destruct (pending_split _ Hpend) as (pre & post & Hmsgs & Hlm & Hothers & Hw).
  pose proof (st_flags Hs) as Hflags. rewrite Forall_forall in Hflags.
  set (s' := generate_outcome lm o (store sys)).
  assert (Hstep : step (Settle i (RGenerate o)) sys =
                  Some {| store := commit s';
                          waiters := map waiter_of (remove_nth i tags) |}).
  { rewrite Hsys at 1.
    rewrite (@step_settle _ _ _ _ (RGenerate o) (generate_settled lm o) Ht eq_refl).
    rewrite run_generate_settled. cbn [fst snd]. now rewrite app_nil_r. }
  pose proof (reach_step _ Hr Hstep) as Hr'.
  exists {| store := commit s'; waiters := map waiter_of (remove_nth i tags) |},
    pre, lm, post.
  destruct (generate_outcome_fields lm o (store sys))
    as (Fm & Fl & Fa & _ & _ & Fv).
  fold s' in Fm, Fl, Fa, Fv.
  destruct (commit_session s') as (Hm & Hl & Hres & _ & _ & Ha & He).
  pose proof (proj1 (polling_follows_loading Hr')) as Hp.
  cbn [store] in Hp |- *. rewrite Hl, Fl in Hp.
  destruct (terminal_turn_settled o (store sys)) as (_ & Hterm & Hrole).
  split; [exact Hstep | ].
  split; [exact Hmsgs | ].
  split; [rewrite Hflags; [exact Hlm | rewrite Hmsgs; apply in_elt] | ].
  split.
  { intros m Hm'. rewrite Hflags; [now apply Hothers | ].
    rewrite Hmsgs. apply in_app_or in Hm'. apply in_or_app.
    destruct Hm'; [now left | right; now right]. }
  split; [rewrite Hm, Fm, Hw; now rewrite app_assoc | ].
  split; [exact Hrole | ].
  split; [exact Hterm | ].
  split; [now rewrite Hl | ].
  split; [exact Hp | ].
  split.
  { intro h. unfold step. cbn [handler store]. now rewrite Hp. }
  split; [now rewrite Ha | ].
  rewrite Hres, He. unfold terminal_turn.
  destruct (verdict o) as [r | msg]; destruct Fv as [F1 F2].
  - repeat split; assumption.
  - rewrite F1. repeat split; assumption.
Qed.

Lemma generate_settlement_witness :
  reachable sample_busy
  /\ nth_error (waiters sample_busy) 0 =
       Some (WGenerate
               (generate_settled (loadingMessage_at (store sample_typed))))
  /\ exists sys',
       step (Settle 0 (RGenerate (Resolved sample_result))) sample_busy = Some sys'
       /\ loading (store sys') = false
       /\ intervals (store sys') = [].
Proof.
  assert (Hr : reachable sample_busy) by apply reachable_after, reach_mount.
  assert (Hnth : nth_error (waiters sample_busy) 0 =
                 Some (WGenerate
                         (generate_settled
                            (loadingMessage_at (store sample_typed)))))
    by (vm_compute; reflexivity).
  split; [exact Hr | split; [exact Hnth | ]].
  destruct (@generate_settlement _ 0 _ (Resolved sample_result) Hr Hnth)
    as (sys' & pre & lm & post & Hstep & _ & _ & _ & _ & _ & _ & Hl & Hi & _).
  exists sys'. auto.
Defined.



Lemma polling_effect_ui : forall s,
  console (polling_effect s) = console s
  /\ feedbackForm (polling_effect s) = feedbackForm s.
Proof.
  intro s. unfold polling_effect, polling_cleanup, start_polling, clearInterval.
  destruct (Bool.eqb (loading s) (effect_loading s)); [auto | ].
  destruct (effect_cleanup s);
    [destruct (activityPollingRef s) | ]; store_simpl;
    destruct (loading s); auto.
Qed.

Lemma commit_console : forall s, console (commit s) = console s.
Proof.
  intro s. unfold commit, render_feedbackForm.
  destruct (polling_effect_ui (set_apiKey (render_apiKey (localStorage s)) s))
    as [Hc _].
  revert Hc.
  generalize (polling_effect (set_apiKey (render_apiKey (localStorage s)) s)).
  intros t Ht.
  destruct (lastGenerationResult t);
    [destruct (feedbackSubmitted t); cbn [negb];
     [ | destruct (feedbackForm t)] | ]; exact Ht.
Qed.


(** X10.  When a poll of the activities settles on a reachable page,
    whether or not a generation is still loading: a response replaces the
    activity snapshot, a rejection is only logged to the console; the
    conversation, the error, the result and the flags are untouched, and no
    request is issued. *)
Theorem activities_settlement : forall sys i k o,
  reachable sys ->
  nth_error (waiters sys) i = Some (WActivities k) ->
  exists sys',
    step (Settle i (RActivities o)) sys = Some sys'
    /\ messages (store sys') = messages (store sys)
    /\ loading (store sys') = loading (store sys)
    /\ error (store sys') = error (store sys)
    /\ lastGenerationResult (store sys') = lastGenerationResult (store sys)
    /\ feedbackSubmitted (store sys') = feedbackSubmitted (store sys)
    /\ requests (store sys') = requests (store sys)
    /\ match o with
       | Resolved r =>
           activities (store sys') = resp_activities r
           /\ console (store sys') = console (store sys)
       | Rejected e =>
           activities (store sys') = activities (store sys)
           /\ console (store sys') = console (store sys) ++ [e]
       end.
Proof.
  intros sys i k o Hr Hnth.
  destruct (reachable_tags Hr) as (tags & Hsys & Hs & _).
  rewrite Hsys in Hnth. cbn [waiters] in Hnth.
  destruct (nth_error_waiter _ _ Hnth) as (t & Ht & Hw).
  destruct t as [lm | | works]; try discriminate. clear Hw.
  set (s' := activities_outcome o (store sys)).
  exists {| store := commit s'; waiters := map waiter_of (remove_nth i tags) |}.
  split.
  { rewrite Hsys at 1.
    rewrite (@step_settle _ _ _ _ (RActivities o) (activities_settled o) Ht eq_refl).
    rewrite run_activities_settled. cbn [fst snd]. now rewrite app_nil_r. }
  destruct (commit_session s') as (Hm & Hl & Hres & Hfs & Hq & Ha & He).
  cbn [store]. rewrite Hm, Hl, Hres, Hfs, Hq, Ha, He, commit_console.
  subst s'. destruct o; store_simpl; repeat split.
Qed.

Lemma activities_settlement_witness :
  reachable sample_generated
  /\ loading (store sample_generated) = false
  /\ nth_error (waiters sample_generated) 0 = Some (WActivities activities_settled)
  /\ exists sys',
       step (Settle 0 (RActivities
                         (Resolved {| resp_activities := [];
                                      resp_isGenerating := false |})))
         sample_generated = Some sys'
       /\ activities (store sys') = [].
Proof.
  assert (Hr : reachable sample_generated)
    by apply reachable_after, reachable_after, reach_mount.
  assert (Hnth : nth_error (waiters sample_generated) 0 =
                 Some (WActivities activities_settled))
    by (vm_compute; reflexivity).
  split; [exact Hr | split; [vm_compute; reflexivity | split; [exact Hnth | ]]].
  destruct (@activities_settlement _ 0 _
              (Resolved {| resp_activities := []; resp_isGenerating := false |})
              Hr Hnth)
    as (sys' & Hstep & _ & _ & _ & _ & _ & _ & Ha & _).
  exists sys'. auto.
Defined.




(** *** Steps *)

Lemma settled_turns_app : forall a b,
  settled_turns (a ++ b) = settled_turns a ++ settled_turns b.
Proof.
  intros. apply filter_app.
Qed.

Lemma effect_settled_turns : forall s tags e s' tags',
  Effect s tags e s' tags' -> Stable s tags ->
  exists new,
    settled_turns (messages s') = settled_turns (messages s) ++ new.
Proof.
  intros s tags e s' tags' H Hs.
  destruct H; try (exists []; store_simpl; now rewrite app_nil_r).
  - exists [userMessage_at (input s) s]. store_simpl.
    rewrite !settled_turns_app. cbn. now rewrite app_nil_r.
  - destruct (@Stable_generate _ _ _ _ o Hs H) as (_ & Hpend & _ & _).
    destruct (pending_split _ Hpend) as (pre & post & Hmsgs & Hlm & _ & Hw).
    pose proof (st_flags Hs) as Hflags. rewrite Forall_forall in Hflags.
    assert (Hloading : Message.loading lm = true).
    { rewrite Hflags; [exact Hlm | rewrite Hmsgs; apply in_elt]. }
    destruct (generate_outcome_fields lm o s) as (Fm & _).
    exists (settled_turns [terminal_turn o s]).
    rewrite Fm, Hw, Hmsgs, !settled_turns_app.
    cbn [settled_turns filter]. rewrite Hloading. cbn [negb].
    reflexivity.
  - destruct o; store_simpl; [exists [] | exists []]; now rewrite app_nil_r.
  - destruct o as [r | err]; store_simpl.
    + eexists. now rewrite settled_turns_app.
    + exists []. now rewrite app_nil_r.
Qed.

(** X12.  No event ever removes, edits or reorders a turn that is not
    pending: after any step of a reachable page the non-pending turns of the
    conversation are those of before, followed by the new ones. *)
Theorem conversation_append_only : forall sys e sys',
  reachable sys ->
  step e sys = Some sys' ->
  exists new,
    settled_turns (messages (store sys')) =
    settled_turns (messages (store sys)) ++ new.
Proof.
  intros sys e sys' Hr Hstep.
  destruct (reachable_tags Hr) as (tags & Hsys & Hs & _).
  rewrite Hsys in Hstep.
  destruct (step_effect _ _ _ Hstep) as (s' & tags' & Heff & ->).
  destruct (effect_settled_turns Heff Hs) as (new & Hnew).
  exists new. cbn [after_effect store].
  destruct (commit_session s') as (Hm & _). now rewrite Hm.
Qed.

Lemma conversation_append_only_witness :
  reachable sample_busy
  /\ step (Settle 0 (RGenerate (Resolved sample_result))) sample_busy =
       Some sample_generated
  /\ exists new,
       settled_turns (messages (store sample_generated)) =
       settled_turns (messages (store sample_busy)) ++ new.
Proof.
  assert (Hr : reachable sample_busy) by apply reachable_after, reach_mount.
  assert (Hstep : step (Settle 0 (RGenerate (Resolved sample_result)))
                    sample_busy = Some sample_generated)
    by (vm_compute; reflexivity).
  split; [exact Hr | split; [exact Hstep | ]].
  exact (conversation_append_only _ Hr Hstep).
Defined.

Lemma remove_nth_length : forall (A : Type) (l : list A) i x,
  nth_error l i = Some x -> S (List.length (remove_nth i l)) = List.length l.
Proof.
  intros A l i x H. destruct (remove_nth_split _ _ H) as (l1 & l2 & -> & ->).
  rewrite !length_app. cbn [List.length]. lia.
Qed.

(** X13.  A settlement never issues a request and never starts another
    call: after it the requests issued are the same and exactly one call
    fewer is outstanding.  In particular nothing is retried. *)
Theorem settlement_starts_nothing : forall sys i r sys',
  reachable sys ->
  step (Settle i r) sys = Some sys' ->
  requests (store sys') = requests (store sys)
  /\ S (List.length (waiters sys')) = List.length (waiters sys).
Proof.
  intros sys i r sys' Hr Hstep.
  destruct (reachable_tags Hr) as (tags & Hsys & Hs & _).
  rewrite Hsys in Hstep |- *. cbn [store waiters].
  destruct (step_effect _ _ _ Hstep) as (s' & tags' & Heff & ->).
  cbn [after_effect store waiters].
  destruct (commit_session s') as (_ & _ & _ & _ & Hq & _). rewrite Hq.
  rewrite !length_map.
  inversion Heff as [ | | | | | | | | | | | j lm o Hn | j o Hn | j w o Hn ];
    subst; split; try exact (remove_nth_length _ _ Hn);
    try destruct o; reflexivity.
Qed.

Lemma settlement_starts_nothing_witness :
  reachable sample_busy
  /\ step (Settle 0 (RGenerate (Resolved sample_result))) sample_busy =
       Some sample_generated
  /\ requests (store sample_generated) = requests (store sample_busy).
Proof.
  assert (Hr : reachable sample_busy) by apply reachable_after, reach_mount.
  assert (Hstep : step (Settle 0 (RGenerate (Resolved sample_result)))
                    sample_busy = Some sample_generated)
    by (vm_compute; reflexivity).
  split; [exact Hr | split; [exact Hstep | ]].
  exact (proj1 (settlement_starts_nothing _ _ Hr Hstep)).
Defined.

(** X14.  [feedbackSubmitted] is only ever set by a feedback request that
    resolves: any other event of a reachable page leaves a false flag
    false. *)
Theorem feedback_flag_set_by_feedback_only : forall sys e sys',
  reachable sys ->
  step e sys = Some sys' ->
  feedbackSubmitted (store sys) = false ->
  feedbackSubmitted (store sys') = true ->
  exists i resp, e = Settle i (RFeedback (Resolved resp)).
Proof.
  intros sys e sys' Hr Hstep Hold Hnew.
  destruct (reachable_tags Hr) as (tags & Hsys & Hs & _).
  rewrite Hsys in Hstep.
  destruct (step_effect _ _ _ Hstep) as (s' & tags' & Heff & ->).
  cbn [after_effect store] in Hnew.
  destruct (commit_session s') as (_ & _ & _ & Hfs & _).
  rewrite Hfs in Hnew. clear Hfs Hstep.
  destruct Heff; store_simpl; try congruence.
  - destruct o; store_simpl; congruence.
  - destruct o as [resp | err]; store_simpl; [eauto | congruence].
Qed.

Lemma feedback_flag_set_by_feedback_only_witness :
  reachable sample_thanked
  /\ step sample_ack sample_thanked = Some (after [sample_ack] sample_thanked)
  /\ feedbackSubmitted (store sample_thanked) = false
  /\ feedbackSubmitted (store (after [sample_ack] sample_thanked)) = true
  /\ exists i resp, sample_ack = Settle i (RFeedback (Resolved resp)).
Proof.
  assert (Hr : reachable sample_thanked)
    by apply reachable_after, reachable_after, reachable_after, reach_mount.
  assert (Hstep : step sample_ack sample_thanked =
                  Some (after [sample_ack] sample_thanked))
    by (vm_compute; reflexivity).
  assert (Hold : feedbackSubmitted (store sample_thanked) = false)
    by (vm_compute; reflexivity).
  assert (Hnew : feedbackSubmitted (store (after [sample_ack] sample_thanked))
                 = true)
    by (vm_compute; reflexivity).
  split; [exact Hr | split; [exact Hstep | split; [exact Hold | ]]].
  split; [exact Hnew | ].
  exact (feedback_flag_set_by_feedback_only _ Hr Hstep Hold Hnew).
Defined.

(** X15.  [handleSubmitFeedback] called while no result is stored, or
    while the stored result has no code or empty code, does nothing: no
    request, no state change, nothing awaited. *)
Theorem feedback_without_code_is_noop : forall works reason s,
  (forall r c, lastGenerationResult s = Some r ->
               GenerationResult.code r = Some c -> c = "") ->
  run (handleSubmitFeedback works reason) s = (s, []).
Proof.
  intros works reason s H. rewrite run_handleSubmitFeedback.
  unfold feedback_code, result_code.
  destruct (lastGenerationResult s) as [r | ]; [ | reflexivity].
  destruct (GenerationResult.code r) as [c | ] eqn:Hc; [ | reflexivity].
  rewrite (H r c eq_refl Hc). reflexivity.
Qed.

Lemma feedback_without_code_is_noop_witness :
  (forall r c, lastGenerationResult (store sample_page) = Some r ->
               GenerationResult.code r = Some c -> c = "")
  /\ run (handleSubmitFeedback true None) (store sample_page) =
       (store sample_page, []).
Proof.
  assert (H : forall r c, lastGenerationResult (store sample_page) = Some r ->
                          GenerationResult.code r = Some c -> c = "")
    by (intros r c Hr; discriminate Hr).
  split; [exact H | ].
  exact (feedback_without_code_is_noop true None _ H).
Defined.

(** X16.  A page mounted without a truthy stored key is inert: whatever
    the user does, every event either cannot fire or changes nothing, so no
    request is ever issued and the conversation stays empty. *)
Theorem page_without_key_is_inert : forall item clk es sys,
  truthy (render_apiKey item) = false ->
  steps es (mount item clk) = Some sys ->
  sys = mount item clk.
Proof.
  intros item clk es sys Hkey. revert sys.
  induction es as [| e es IH]; intros sys Hs; cbn [steps] in Hs.
  - now injection Hs as <-.
  - destruct (step e (mount item clk)) as [sys1 | ] eqn:Hstep; [ | discriminate].
    assert (sys1 = mount item clk); [ | subst sys1; now apply IH].
    unfold step in Hstep.
    destruct e; cbn [handler mount store waiters feedbackForm intervals
                     existsb apiKey] in Hstep;
      rewrite ?Hkey in Hstep; cbn [negb orb] in Hstep; try discriminate.
    + rewrite run_ChatInput_handleSubmit in Hstep.
      unfold chat_accepts in Hstep. cbn [mount store apiKey] in Hstep.
      rewrite Hkey in Hstep. cbn [negb] in Hstep.
      rewrite andb_false_r in Hstep. cbn [andb] in Hstep.
      injection Hstep as <-. cbn [remaining app].
      pose proof (inv_committed (mount_inv item clk)) as Hc.
      cbn [mount store] in Hc. rewrite Hc. reflexivity.
    + destruct i; discriminate.
Qed.

Lemma page_without_key_is_inert_witness :
  truthy (render_apiKey None) = false
  /\ steps [SubmitChat; SubmitChat] (mount None wall_clock) =
       Some (after [SubmitChat; SubmitChat] (mount None wall_clock))
  /\ after [SubmitChat; SubmitChat] (mount None wall_clock) =
       mount None wall_clock.
Proof.
  assert (Hs : steps [SubmitChat; SubmitChat] (mount None wall_clock) =
               Some (after [SubmitChat; SubmitChat] (mount None wall_clock)))
    by (vm_compute; reflexivity).
  split; [reflexivity | split; [exact Hs | ]].
  exact (@page_without_key_is_inert None wall_clock [SubmitChat; SubmitChat] _
           eq_refl Hs).
Defined.




(** ** [ChatMessage] renders the turns *)











(** X18.  The other turns the page writes itself (the pending turn, the
    missing-key turn, the two feedback acknowledgements) are always plain
    text, and an error turn is plain text whenever the failure message
    contains no fence. *)
Theorem page_turns_plain_text : forall s works id date msg,
  bubble (ChatMessage (loadingMessage_at s)) = Text loadingContent
  /\ bubble (ChatMessage (configMessage_at s)) = Text configErrorMsg
  /\ bubble (ChatMessage
               (Message.mk id assistant (feedbackContent works) date false)) =
       Text (feedbackContent works)
  /\ (includes fence msg = false ->
      bubble (ChatMessage
                (Message.mk id assistant (errorContent msg) date false)) =
        Text (errorContent msg)).
Proof.
  intros s works id date msg. repeat split.
  - now destruct works.
  - intro Hmsg. unfold ChatMessage. cbn [bubble Message.content].
    assert (H : includes fence (errorContent msg) = includes fence msg).
    { unfold errorContent. cbn [String.append includes]. cbn. reflexivity. }
    now rewrite H, Hmsg.
Qed.

Lemma page_turns_plain_text_witness :
  includes fence "syntax error" = false
  /\ bubble (ChatMessage
               (Message.mk "error-1" assistant (errorContent "syntax error") 0
                  false)) =
       Text (errorContent "syntax error").
Proof.
  split; [reflexivity | ].
  exact (proj2 (proj2 (proj2 (page_turns_plain_text (store sample_page) true
                                "error-1" 0 "syntax error"))) eq_refl).
Defined.


(** ** From the [Settings] page to the generator *)

Lemma json_value_obj : forall props,
  json_value (JObj props) = JObj (json_props props).
Proof.
  reflexivity.
Qed.








